(** * sync/ffmpeg.py: output naming, single-file encode and batch driver

    A shallow embedding of [_build_filename], [encode_video_single] and
    [encode_videos].  Python floats are binary64 and are modelled by Rocq's
    primitive floats; the file system and the external transcoder are an
    explicit world that every effectful function threads through; Python
    exceptions are the [Raise] outcome of a small state-and-error monad.
    [os.path] is the POSIX one.  A path is the string the program passes,
    looked up as written.  What the operating system may refuse when a
    directory is made, beyond what the file system shows, is an oracle
    carried by the world, so that every statement holds whatever it
    answers.  Calls to [_logger] are left out: they touch neither the
    file system nor the transcoder. *)

From Stdlib Require Import ZArith Floats Ascii DecimalString.
From stdpp Require Import gmap strings list fin_maps.

Local Open Scope Z_scope.

(** ** Python strings *)

Module PyStr.

(** The double-quote character, chr(34). *)
Definition dquote : string :=
  String (Ascii.Ascii false true false false false true false false) "".

(** [s.rfind(c)] for a one-character needle: the highest index, or -1. *)
Fixpoint rfind (c : Ascii.ascii) (s : string) : Z :=
  match s with
  | EmptyString => -1
  | String a s' =>
      let r := rfind c s' in
      if 0 <=? r then r + 1 else if Ascii.eqb a c then 0 else -1
  end.

(** [s[:n]] and [s[n:]] for a non-negative [n]. *)
Fixpoint take (n : nat) (s : string) : string :=
  match n, s with
  | S n', String a s' => String a (take n' s')
  | _, _ => EmptyString
  end.

Fixpoint drop (n : nat) (s : string) : string :=
  match n, s with
  | S n', String _ s' => drop n' s'
  | _, _ => s
  end.

(** [s[i:i+1]]: the empty string when [i] is out of range. *)
Definition char_at (s : string) (i : nat) : string := take 1 (drop i s).

Definition startswith (s : string) (c : Ascii.ascii) : bool :=
  match s with
  | String a _ => Ascii.eqb a c
  | EmptyString => false
  end.

Fixpoint endswith (s : string) (c : Ascii.ascii) : bool :=
  match s with
  | EmptyString => false
  | String a EmptyString => Ascii.eqb a c
  | String _ s' => endswith s' c
  end.

(** [sep.join(l)]. *)
Fixpoint join (sep : string) (l : list string) : string :=
  match l with
  | [] => ""
  | [x] => x
  | x :: l' => x +:+ sep +:+ join sep l'
  end.

(** [str(n)] for a Python int. *)
Definition of_int (n : Z) : string := NilZero.string_of_int (Z.to_int n).

Definition digit_char (d : Z) : Ascii.ascii :=
  Ascii.ascii_of_N (48 + Z.to_N d).

(** The last [k] decimal digits of [n], zero padded. *)
Fixpoint fixed_digits (k : nat) (n : Z) : string :=
  match k with
  | O => ""
  | S k' => fixed_digits k' (n / 10) +:+ String (digit_char (n mod 10)) ""
  end.

End PyStr.

(** ** os.path, POSIX flavour (posixpath and genericpath) *)

Module OsPath.
Import PyStr.

(** [os.path.basename(p)]: everything after the last slash. *)
Definition basename (p : string) : string :=
  let i := rfind "/"%char p + 1 in
  drop (Z.to_nat i) p.

(** The loop of [genericpath._splitext] that skips leading dots: [true]
    as soon as a character other than the dot is met at an index in
    [filenameIndex, filenameIndex + steps). *)
Fixpoint has_non_dot (p : string) (filenameIndex steps : nat) : bool :=
  match steps with
  | O => false
  | S k =>
      if negb (String.eqb (char_at p filenameIndex) ".") then true
      else has_non_dot p (S filenameIndex) k
  end.

(** [os.path.splitext(p)]. *)
Definition splitext (p : string) : string * string :=
  let sepIndex := rfind "/"%char p in
  let dotIndex := rfind "."%char p in
  if (sepIndex <? dotIndex)
     && has_non_dot p (Z.to_nat (sepIndex + 1))
                    (Z.to_nat (dotIndex - (sepIndex + 1)))
  then (take (Z.to_nat dotIndex) p, drop (Z.to_nat dotIndex) p)
  else (p, "").

(** [os.path.join(a, b)] with two arguments. *)
Definition join (a b : string) : string :=
  if startswith b "/"%char then b
  else if String.eqb a "" || endswith a "/"%char then a +:+ b
  else a +:+ "/" +:+ b.

End OsPath.

(** ** Python floats *)

Module PyFloat.
Import PyStr.

(** [bool(x)]: a float is false exactly when it compares equal to zero. *)
Definition truthy (x : float) : bool := negb (PrimFloat.eqb x 0%float).

(** [x > 0]. *)
Definition gt0 (x : float) : bool := PrimFloat.ltb 0%float x.

(** Nearest integer to [num / den], ties to the even one. *)
Definition round_half_even (num den : Z) : Z :=
  let q := num / den in
  let r := num mod den in
  match 2 * r ?= den with
  | Lt => q
  | Gt => q + 1
  | Eq => if Z.even q then q else q + 1
  end.

(** [m * 2^e * 10^prec] rounded to an integer. *)
Definition scaled (prec : nat) (m : positive) (e : Z) : Z :=
  let p := 10 ^ Z.of_nat prec in
  if 0 <=? e then Z.pos m * 2 ^ e * p
  else round_half_even (Z.pos m * p) (2 ^ (- e)).

Definition sign_str (s : bool) : string := if s then "-" else "".

(** The digits of the non-negative [n], read as a count of units of
    [10^-prec], with the decimal point put in. *)
Definition render (prec : nat) (n : Z) : string :=
  let p := 10 ^ Z.of_nat prec in
  of_int (n / p) +:+ "." +:+ fixed_digits prec (n mod p).

(** [f'{x:.<prec>f}'] for a precision of at least one: the exact binary
    value, correctly rounded to [prec] decimals. *)
Definition format_f (prec : nat) (x : float) : string :=
  match Prim2SF x with
  | S754_nan => "nan"
  | S754_infinity s => sign_str s +:+ "inf"
  | S754_zero s => sign_str s +:+ render prec 0
  | S754_finite s m e => sign_str s +:+ render prec (scaled prec m e)
  end.

(** The scan of the builtin [min]: the first item is kept until a later
    one compares strictly below it. *)
Fixpoint min_from (cur : float) (l : list float) : float :=
  match l with
  | [] => cur
  | x :: l' => min_from (if PrimFloat.ltb x cur then x else cur) l'
  end.

(** [min(l)]; [None] stands for the ValueError on an empty list. *)
Definition py_min (l : list float) : option float :=
  match l with
  | [] => None
  | x :: l' => Some (min_from x l')
  end.

End PyFloat.

(** ** The world: file system, transcoder, exceptions *)

Inductive node := File | Dir.

(** How a launched process ended; [LaunchFailed] when it could not be
    started at all. *)
Inductive proc_result :=
| Exited (returncode : Z)
| LaunchFailed.

(** One [subprocess.check_call]: the command line, whether stderr went to
    DEVNULL, the file system the process started in, the one it left, and
    how it ended. *)
Record call := Call {
  call_cmd : string;
  call_silent : bool;
  call_fs : gmap string node;
  call_fs_after : gmap string node;
  call_result : proc_result
}.

(** Why the operating system may refuse to create a directory that is
    absent and whose parents are directories: access rights, a component
    that is gone, or any other failure of the system call. *)
Inductive os_error := EACCES | ENOENT | EOTHER.

(** The file system maps a path to what is found there.  [calls] is the
    chronological record of the external invocations made so far.
    [refuses] is the part of the operating system that the map does not
    show: asked to create a directory in a given file system, it says
    whether the system call fails and how. *)
Record world := MkWorld {
  fs : gmap string node;
  calls : list call;
  refuses : gmap string node -> string -> option os_error
}.

(** A world whose operating system refuses nothing of its own accord. *)
Definition World (m : gmap string node) (l : list call) : world :=
  MkWorld m l (fun _ _ => None).

(** The exceptions the three functions can raise.  [OSError] is an
    OSError of no subclass told apart here; the four that follow are the
    subclasses [os.makedirs] raises by name. *)
Inductive exn :=
| OSError (path : string)
| FileExistsError (path : string)
| NotADirectoryError (path : string)
| PermissionError (path : string)
| FileNotFoundError (path : string)
| AssertionError (msg : string)
| IndexError
| ValueError
| CalledProcessError (returncode : Z) (cmd : string).

Inductive result (A : Type) :=
| Ok (a : A)
| Raise (e : exn).
Arguments Ok {A} a.
Arguments Raise {A} e.

(** State over the world, stopped by the first exception.  The world at
    the time of the exception is kept. *)
Definition M (A : Type) : Type := world -> result A * world.

Definition ret {A} (a : A) : M A := fun w => (Ok a, w).

Definition raise {A} (e : exn) : M A := fun w => (Raise e, w).

Definition bind {A B} (m : M A) (k : A -> M B) : M B :=
  fun w =>
    match m w with
    | (Ok a, w') => k a w'
    | (Raise e, w') => (Raise e, w')
    end.

Notation "x <- m ;; k" := (bind m (fun x => k))
  (at level 100, m at next level, right associativity).
Notation "m ;; k" := (bind m (fun _ => k))
  (at level 100, right associativity).

(** [os.stat(path)] succeeds. *)
Definition stat_ok (w : world) (path : string) : bool :=
  bool_decide (is_Some (fs w !! path)).

(** [os.path.exists(path)]: [os.stat] did not fail. *)
Definition os_path_exists (path : string) : M bool :=
  fun w => (Ok (stat_ok w path), w).

(** [os.path.getatime(path)]: OSError when [os.stat] fails.  The caller
    discards the time stamp, so none is modelled. *)
Definition os_path_getatime (path : string) : M unit :=
  fun w => if stat_ok w path then (Ok tt, w) else (Raise (OSError path), w).

(** The exception of a refused [mkdir]. *)
Definition os_exn (k : os_error) (path : string) : exn :=
  match k with
  | EACCES => PermissionError path
  | ENOENT => FileNotFoundError path
  | EOTHER => OSError path
  end.

(** The proper ancestors of [path], outermost first: its prefixes up to
    each slash, as written, those that are empty or end in a slash
    left out. *)
Fixpoint parents_from (pre s : string) : list string :=
  match s with
  | EmptyString => []
  | String a s' =>
      (if Ascii.eqb a "/"%char && negb (String.eqb pre "")
          && negb (PyStr.endswith pre "/"%char)
       then [pre] else [])
      ++ parents_from (pre +:+ String a "") s'
  end.

Definition parents (path : string) : list string := parents_from "" path.

(** [mkdir] on each of [dirs] in turn, outermost first, as [os.makedirs]
    does for the missing ancestors and then the leaf.  A directory that
    is there is left alone; below a regular file the next [mkdir] fails
    with NotADirectoryError; a directory that is absent is created unless
    the operating system refuses.  What was created before a failure
    stays. *)
Fixpoint mkdir_all (refuse : gmap string node -> string -> option os_error)
    (dirs : list string) (m : gmap string node)
    : option exn * gmap string node :=
  match dirs with
  | [] => (None, m)
  | p :: rest =>
      match m !! p with
      | Some Dir => mkdir_all refuse rest m
      | Some File =>
          (Some match rest with
                | q :: _ => NotADirectoryError q
                | [] => FileExistsError p
                end, m)
      | None =>
          match refuse m p with
          | Some k => (Some (os_exn k p), m)
          | None => mkdir_all refuse rest (<[p := Dir]> m)
          end
      end
  end.

(** [os.makedirs(path, exist_ok=True)] on a file system in which whatever
    exists has its ancestors: a directory at [path] is fine, a regular
    file there is FileExistsError, the empty path is FileNotFoundError,
    and an absent path has its missing ancestors and itself created, or
    raises at the first [mkdir] that fails. *)
Definition os_makedirs (path : string) : M unit :=
  fun w =>
    match fs w !! path with
    | Some Dir => (Ok tt, w)
    | Some File => (Raise (FileExistsError path), w)
    | None =>
        if String.eqb path "" then (Raise (FileNotFoundError path), w)
        else
          let '(e, m) :=
            mkdir_all (refuses w) (parents path ++ [path]) (fs w) in
          let w' := MkWorld m (calls w) (refuses w) in
          match e with
          | Some e => (Raise e, w')
          | None => (Ok tt, w')
          end
    end.

(** ** Output naming *)

(** [if x:] on an optional float: [None] and zero are both false. *)
Definition if_set (o : option float) : option float :=
  match o with
  | Some x => if PyFloat.truthy x then Some x else None
  | None => None
  end.

(** The [features] list of [_build_filename] once its four tests ran. *)
Definition build_features (start_offset duration fps : option float)
    (resolution : option (Z * Z)) : list string :=
  let features := [] in
  let features :=
    match if_set start_offset with
    | Some x => features ++ ["ss" +:+ PyFloat.format_f 2 x]
    | None => features
    end in
  let features :=
    match if_set duration with
    | Some x => features ++ ["t" +:+ PyFloat.format_f 2 x]
    | None => features
    end in
  let features :=
    match if_set fps with
    | Some x => features ++ ["fps" +:+ PyFloat.format_f 2 x]
    | None => features
    end in
  let features :=
    match resolution with
    | Some (w, h) => features ++ [PyStr.of_int w +:+ "x" +:+ PyStr.of_int h]
    | None => features
    end in
  features.

Definition _build_filename (basename : string)
    (start_offset duration fps : option float)
    (resolution : option (Z * Z)) : string * string :=
  let '(base_wo_ext, extension) := OsPath.splitext basename in
  let features := build_features start_offset duration fps resolution in
  let ret :=
    match features with
    | _ :: _ => base_wo_ext +:+ "_[" +:+ PyStr.join "_" features +:+ "]"
    | [] => base_wo_ext
    end in
  (ret, extension).

(** ** Single-file encode and batch driver *)

(** One alignment record, [{'file': .., 'orig_duration': .., 'trim': ..}]. *)
Record align_record := AlignRecord {
  file : string;
  orig_duration : float;
  trim : float
}.

(** The keyword arguments shared by every file of a batch. *)
Record base_kwargs := BaseKwargs {
  bk_overwrite : bool;
  bk_save_frames : bool;
  bk_duration : option float;
  bk_fps : option float;
  bk_resolution : option (Z * Z);
  bk_silent : bool
}.

(** [if align_info:] is false for [None] and for the empty list. *)
Definition align_truthy (align_info : option (list align_record)) : bool :=
  match align_info with
  | Some (_ :: _) => true
  | _ => false
  end.

(** [l[i]] for [0 <= i]: IndexError when out of range. *)
Definition index {A} (l : list A) (i : nat) : M A :=
  match l !! i with
  | Some x => ret x
  | None => raise IndexError
  end.

(** [for i in range(start, start + count): acc = body(i, acc)]. *)
Fixpoint for_range {A} (start count : nat) (body : nat -> A -> M A)
    (acc : A) : M A :=
  match count with
  | O => ret acc
  | S count' =>
      acc' <- body start acc ;;
      for_range (S start) count' body acc'
  end.

(** The command line up to the filter argument (lines 79 to 97). *)
Definition encode_cmd (video : string)
    (start_offset duration fps : option float)
    (resolution : option (Z * Z)) : list string :=
  let cmd := ["ffmpeg"; "-hide_banner"; "-y"; "-i"; video; "-map"; "0:v"] in
  let cmd :=
    match if_set start_offset with
    | Some x =>
        if PyFloat.gt0 x then cmd ++ ["-ss"; PyFloat.format_f 3 x] else cmd
    | None => cmd
    end in
  let cmd :=
    match if_set duration with
    | Some x => cmd ++ ["-t"; PyFloat.format_f 3 x]
    | None => cmd
    end in
  let filters := [] in
  let filters :=
    match if_set fps with
    | Some x =>
        if PyFloat.gt0 x then filters ++ ["fps=" +:+ PyFloat.format_f 3 x]
        else filters
    | None => filters
    end in
  let filters :=
    match resolution with
    | Some (w, h) =>
        filters ++ ["scale=" +:+ PyStr.of_int w +:+ ":" +:+ PyStr.of_int h]
    | None => filters
    end in
  match filters with
  | _ :: _ =>
      cmd ++ ["-filter:v";
              PyStr.dquote +:+ PyStr.join ", " filters +:+ PyStr.dquote]
  | [] => cmd
  end.

(** The output path of [encode_video_single] (lines 62 to 72). *)
Definition output_path_of (video output_dir : string) (save_frames : bool)
    (start_offset duration fps : option float)
    (resolution : option (Z * Z)) : string :=
  let '(output_basename, extension) :=
    _build_filename (OsPath.basename video)
                    start_offset duration fps resolution in
  if save_frames then OsPath.join output_dir output_basename
  else OsPath.join output_dir (output_basename +:+ extension).

Section Encoder.

(** The external transcoder: from the command line, whether its stderr
    is discarded, and the world it is started in, how the process ends
    and the file system it leaves behind. *)
Variable ffmpeg : string -> bool -> world -> proc_result * gmap string node.

(** [subprocess.check_call(cmd_str, ...)]: run to completion, record the
    call, raise unless the process exited with status zero. *)
Definition check_call (cmd_str : string) (silent : bool) : M unit :=
  fun w =>
    let '(r, fs') := ffmpeg cmd_str silent w in
    let w' :=
      MkWorld fs' (calls w ++ [Call cmd_str silent (fs w) fs' r])
              (refuses w) in
    match r with
    | Exited c =>
        if c =? 0 then (Ok tt, w')
        else (Raise (CalledProcessError c cmd_str), w')
    | LaunchFailed => (Raise (OSError cmd_str), w')
    end.

Definition encode_video_single (video output_dir : string)
    (overwrite save_frames : bool)
    (start_offset duration fps : option float)
    (resolution : option (Z * Z)) (silent : bool) : M string :=
  let output_path :=
    output_path_of video output_dir save_frames
                   start_offset duration fps resolution in
  skip <- (if negb overwrite then os_path_exists output_path
           else ret false) ;;
  if skip then ret output_path
  else
    let cmd := encode_cmd video start_offset duration fps resolution in
    co <- (if save_frames then
             let cmd := cmd ++ ["-q:v"; "4"] in
             let output_file := OsPath.join output_path "%04d.jpeg" in
             os_makedirs output_path ;;
             ret (cmd, output_file)
           else ret (cmd, output_path)) ;;
    let cmd := fst co ++ [snd co] in
    let cmd_str := PyStr.join " " cmd in
    (if silent then check_call cmd_str true
     else check_call cmd_str false) ;;
    ret output_path.

(** The body of the first loop of [encode_videos] (lines 148 to 170);
    the accumulator is [(file_kwargs, durations)].  The [assert] is taken
    as enabled, as it is unless the interpreter runs with -O. *)
Definition prepare_file (video_files : list string)
    (align_info : option (list align_record)) (i : nat)
    (acc : list (string * option float) * list float)
    : M (list (string * option float) * list float) :=
  let '(file_kwargs, durations) := acc in
  video_file <- index video_files i ;;
  os_path_getatime video_file ;;
  let video_basename := OsPath.basename video_file in
  ds <- (if align_truthy align_info then
           video_info <- index (default [] align_info) i ;;
           if String.eqb video_basename (OsPath.basename (file video_info))
           then
             ret (durations ++
                    [PrimFloat.sub (orig_duration video_info)
                                   (trim video_info)],
                  Some (trim video_info))
           else
             raise (AssertionError
                      "the files and align info seem to be out of order")
         else ret (durations, None)) ;;
  ret (file_kwargs ++ [(video_file, snd ds)], fst ds).

(** The second loop of [encode_videos] (lines 176 to 182). *)
Fixpoint encode_loop (output_dir : string) (bk : base_kwargs)
    (file_kwargs : list (string * option float))
    (outputs : list string) : M (list string) :=
  match file_kwargs with
  | [] => ret outputs
  | (video_file, st_offset) :: rest =>
      out <- encode_video_single video_file output_dir
               (bk_overwrite bk) (bk_save_frames bk)
               st_offset (bk_duration bk) (bk_fps bk) (bk_resolution bk)
               (bk_silent bk) ;;
      encode_loop output_dir bk rest (outputs ++ [out])
  end.

Definition encode_videos (video_files : list string) (output_dir : string)
    (overwrite save_frames : bool)
    (align_info : option (list align_record))
    (fps : option float) (resolution : option (Z * Z))
    (silent : bool) : M (list string) :=
  let n_files := length video_files in
  if Nat.eqb n_files 0 then ret []
  else
    let base := BaseKwargs overwrite save_frames None fps resolution silent in
    fd <- for_range 0 n_files (prepare_file video_files align_info)
            ([], []) ;;
    base <- (if align_truthy align_info then
               match PyFloat.py_min (snd fd) with
               | Some min_duration =>
                   ret (BaseKwargs overwrite save_frames (Some min_duration)
                                   fps resolution silent)
               | None => raise ValueError
               end
             else ret base) ;;
    encode_loop output_dir base (fst fd) [].

End Encoder.

(** A transcoder that writes its last argument as a file and exits with
    status zero, unless the command line mentions [bad], in which case it
    exits with status one and writes nothing. *)
Fixpoint contains_bad (s : string) : bool :=
  match s with
  | String "b" (String "a" (String "d" _)) => true
  | String _ s' => contains_bad s'
  | EmptyString => false
  end.

Definition last_word (cmd : string) : string :=
  PyStr.drop (Z.to_nat (PyStr.rfind " "%char cmd + 1)) cmd.

Definition demo_ffmpeg (cmd : string) (silent : bool) (w : world)
    : proc_result * gmap string node :=
  if contains_bad cmd then (Exited 1, fs w)
  else (Exited 0, <[last_word cmd := File]> (fs w)).

Definition demo_world : world :=
  World (list_to_map [("in/a.mp4", File); ("in/b.mp4", File);
                      ("in/bad.mp4", File); ("in/c.mp4", File)]) [].

Definition demo_align : list align_record :=
  [AlignRecord "x/a.mp4" 10 2; AlignRecord "y/b.mp4" 9 1;
   AlignRecord "c.mp4" 12 5].

(** ** Vocabulary of the statements *)

(** Run [f] on each item in order and collect the results; the first
    exception ends the run. *)
Fixpoint for_each {A B} (f : A -> M B) (l : list A) : M (list B) :=
  match l with
  | [] => ret []
  | x :: l' =>
      y <- f x ;;
      ys <- for_each f l' ;;
      ret (y :: ys)
  end.

(** The four tags in their fixed order, each present or absent. *)
Definition tag_slots (start_offset duration fps : option float)
    (resolution : option (Z * Z)) : list (option string) :=
  [ (fun x => "ss" +:+ PyFloat.format_f 2 x) <$> if_set start_offset;
    (fun x => "t" +:+ PyFloat.format_f 2 x) <$> if_set duration;
    (fun x => "fps" +:+ PyFloat.format_f 2 x) <$> if_set fps;
    (fun r => PyStr.of_int r.1 +:+ "x" +:+ PyStr.of_int r.2) <$> resolution ].

(** The exception [check_call] raises for the way the process ended. *)
Definition raised_by (c : call) : option exn :=
  match call_result c with
  | Exited n =>
      if n =? 0 then None else Some (CalledProcessError n (call_cmd c))
  | LaunchFailed => Some (OSError (call_cmd c))
  end.

(** The exceptions of [os.makedirs]. *)
Definition makedirs_error (e : exn) : bool :=
  match e with
  | FileExistsError _ | NotADirectoryError _ | PermissionError _
  | FileNotFoundError _ | OSError _ => true
  | _ => false
  end.

(** Every call either is skipped, or stops at a regular file sitting
    where the frame directory should go, or stops because the frame
    directory could not be made, or reaches the transcoder. *)
Inductive encode_outcome (w : world) (path : string)
    (overwrite save_frames silent : bool) : result string -> world -> Prop :=
| Skipped :
    overwrite = false -> stat_ok w path = true ->
    encode_outcome w path overwrite save_frames silent (Ok path) w
| DirBlocked :
    negb overwrite && stat_ok w path = false ->
    save_frames = true -> fs w !! path = Some File ->
    encode_outcome w path overwrite save_frames silent
      (Raise (FileExistsError path)) w
| DirFailed e w' :
    negb overwrite && stat_ok w path = false ->
    save_frames = true -> fs w !! path = None ->
    makedirs_error e = true ->
    calls w' = calls w -> fs w ⊆ fs w' ->
    encode_outcome w path overwrite save_frames silent (Raise e) w'
| Invoked c w' :
    negb overwrite && stat_ok w path = false ->
    calls w' = calls w ++ [c] ->
    call_silent c = silent ->
    fs w ⊆ call_fs c ->
    (save_frames = true -> call_fs c !! path = Some Dir) ->
    (save_frames = false -> call_fs c = fs w) ->
    call_fs_after c = fs w' ->
    encode_outcome w path overwrite save_frames silent
      (match raised_by c with None => Ok path | Some e => Raise e end) w'.

(** [P] holds of every character of [s]. *)
Fixpoint str_all (P : Ascii.ascii -> bool) (s : string) : bool :=
  match s with
  | EmptyString => true
  | String a s' => P a && str_all P s'
  end.

(** No underscore occurs in [s]. *)
Definition clean (s : string) : bool :=
  str_all (fun c => negb (Ascii.eqb c "_"%char)) s.

(** A decimal digit; a decimal digit or the minus sign. *)
Definition is_digit (c : Ascii.ascii) : bool :=
  (48 <=? N_of_ascii c)%N && (N_of_ascii c <=? 57)%N.

Definition sign_or_digit (c : Ascii.ascii) : bool :=
  is_digit c || Ascii.eqb c "-"%char.

(** The shape of a number printed with two decimals: an optional sign and
    digits, a point, two digits; or one of the three non-finite names. *)
Definition two_decimals (s : string) : Prop :=
  s = "nan" \/ s = "inf" \/ s = "-inf"
  \/ exists whole d1 d2,
       s = whole +:+ "." +:+ String d1 (String d2 "")
       /\ str_all sign_or_digit whole = true
       /\ is_digit d1 = true /\ is_digit d2 = true.

(** The slot a tag belongs to, told by its first character: 0 for the
    start offset, 1 for the duration, 2 for the fps, 3 for the resolution. *)
Definition tag_class (t : string) : nat :=
  match t with
  | String "s" _ => 0
  | String "t" _ => 1
  | String "f" _ => 2
  | _ => 3
  end.

Fixpoint find_class (k : nat) (tags : list string) : option string :=
  match tags with
  | [] => None
  | t :: tags' =>
      if Nat.eqb (tag_class t) k then Some t else find_class k tags'
  end.

(** The four slots read back from a tag list. *)
Definition reslot (tags : list string) : list (option string) :=
  [find_class 0 tags; find_class 1 tags; find_class 2 tags;
   find_class 3 tags].

(** ** Vocabulary of the batch driver *)

(** [orig_duration - trim] of one record. *)
Definition clip_duration (r : align_record) : float :=
  (orig_duration r - trim r)%float.

(** The start offset the first loop gives the file at index [i]. *)
Definition start_offset_at (align_info : option (list align_record))
    (i : nat) : option float :=
  if align_truthy align_info then trim <$> (default [] align_info !! i)
  else None.

(** What the first loop appends to [durations] at index [i]. *)
Definition clip_at (align_info : option (list align_record))
    (i : nat) : list float :=
  if align_truthy align_info
  then match default [] align_info !! i with
       | Some r => [clip_duration r]
       | None => []
       end
  else [].

(** The file at index [i] gets through the body of the first loop: it can
    be accessed and, with alignment records, has a record of its own base
    name. *)
Definition passes_checks (w : world)
    (align_info : option (list align_record)) (i : nat) (v : string) : bool :=
  stat_ok w v
  && (if align_truthy align_info
      then match default [] align_info !! i with
           | Some r =>
               String.eqb (OsPath.basename v) (OsPath.basename (file r))
           | None => false
           end
      else true).

(** The exception of a file that does not get through. *)
Definition check_error (w : world)
    (align_info : option (list align_record)) (i : nat) (v : string) : exn :=
  if stat_ok w v then
    match default [] align_info !! i with
    | Some _ =>
        AssertionError "the files and align info seem to be out of order"
    | None => IndexError
    end
  else OSError v.

(** The exception of the first file, from index [i] on, that does not get
    through. *)
Fixpoint first_failure (w : world)
    (align_info : option (list align_record)) (i : nat)
    (files : list string) : option exn :=
  match files with
  | [] => None
  | v :: files' =>
      if passes_checks w align_info i v
      then first_failure w align_info (S i) files'
      else Some (check_error w align_info i v)
  end.

(** The duration shared by a batch of [n] files. *)
Definition shared_duration_of (align_info : option (list align_record))
    (n : nat) : option float :=
  if align_truthy align_info
  then PyFloat.py_min (clip_duration <$> take n (default [] align_info))
  else None.

(** The [file_kwargs] and [durations] the first loop builds for the files
    from index [i] on. *)
Fixpoint kwargs_from (align_info : option (list align_record)) (i : nat)
    (files : list string) : list (string * option float) :=
  match files with
  | [] => []
  | v :: files' =>
      (v, start_offset_at align_info i) :: kwargs_from align_info (S i) files'
  end.

Fixpoint durations_from (align_info : option (list align_record)) (i : nat)
    (files : list string) : list float :=
  match files with
  | [] => []
  | _ :: files' =>
      clip_at align_info i ++ durations_from align_info (S i) files'
  end.

(** The last word of the command line (lines 99 to 105): the frame
    pattern inside the output directory, or the output file itself. *)
Definition output_file_of (output_path : string) (save_frames : bool)
    : string :=
  if save_frames then OsPath.join output_path "%04d.jpeg" else output_path.

(** The command line handed to [check_call] (lines 79 to 108). *)
Definition encode_cmd_str (video output_dir : string) (save_frames : bool)
    (start_offset duration fps : option float)
    (resolution : option (Z * Z)) : string :=
  let output_path :=
    output_path_of video output_dir save_frames
                   start_offset duration fps resolution in
  let cmd := encode_cmd video start_offset duration fps resolution in
  let cmd := if save_frames then cmd ++ ["-q:v"; "4"] else cmd in
  PyStr.join " " (cmd ++ [output_file_of output_path save_frames]).

(** A transcoder that exits with status zero and writes nothing. *)
Definition idle_ffmpeg (cmd : string) (silent : bool) (w : world)
    : proc_result * gmap string node :=
  (Exited 0, fs w).

(** * Properties *)

(** ** Strings: append and character classes *)

Lemma str_app_cons a s t : String a s +:+ t = String a (s +:+ t).
Proof. reflexivity. Qed.

Lemma str_app_nil_r s : s +:+ "" = s.
Proof.
  induction s as [|a s IH]; [reflexivity|].
  by rewrite str_app_cons, IH.
Qed.

Lemma str_app_assoc s t u : (s +:+ t) +:+ u = s +:+ (t +:+ u).
Proof.
  induction s as [|a s IH]; [reflexivity|].
  by rewrite !str_app_cons, IH.
Qed.

Lemma str_app_length s t :
  String.length (s +:+ t) = (String.length s + String.length t)%nat.
Proof.
  induction s as [|a s IH]; [reflexivity|].
  rewrite str_app_cons. simpl. by rewrite IH.
Qed.

Lemma str_app_inv_tail s1 s2 t : s1 +:+ t = s2 +:+ t -> s1 = s2.
Proof.
  revert s2. induction s1 as [|a s1 IH]; intros [|b s2] H.
  - reflexivity.
  - apply (f_equal String.length) in H.
    rewrite str_app_cons in H. simpl in H. rewrite !str_app_length in H.
    simpl in H. lia.
  - apply (f_equal String.length) in H.
    rewrite str_app_cons in H. simpl in H. rewrite !str_app_length in H.
    simpl in H. lia.
  - rewrite !str_app_cons in H. injection H as -> H. f_equal. by apply IH.
Qed.

Lemma str_all_app P s t : str_all P (s +:+ t) = str_all P s && str_all P t.
Proof.
  induction s as [|a s IH]; [reflexivity|].
  rewrite str_app_cons. simpl. by rewrite IH, andb_assoc.
Qed.

Lemma str_all_impl (P Q : Ascii.ascii -> bool) s :
  (forall c, P c = true -> Q c = true) ->
  str_all P s = true -> str_all Q s = true.
Proof.
  intros HPQ. induction s as [|a s IH]; [done|]. simpl.
  intros [Ha Hs]%andb_prop. by rewrite (HPQ a Ha), IH.
Qed.

Lemma clean_app s t : clean (s +:+ t) = clean s && clean t.
Proof. apply str_all_app. Qed.

Lemma sign_or_digit_clean c :
  sign_or_digit c = true -> negb (Ascii.eqb c "_"%char) = true.
Proof.
  destruct c as [[] [] [] [] [] [] [] []]; try reflexivity; discriminate.
Qed.

Lemma sign_or_digit_uint d :
  str_all sign_or_digit (NilEmpty.string_of_uint d) = true.
Proof. induction d; simpl; auto. Qed.

Lemma sign_or_digit_of_int n : str_all sign_or_digit (PyStr.of_int n) = true.
Proof.
  unfold PyStr.of_int, NilZero.string_of_int, NilZero.string_of_uint.
  destruct (Z.to_int n) as [d|d]; destruct d; try reflexivity;
    apply (sign_or_digit_uint (_ _))
    || (cbn [str_all]; apply (sign_or_digit_uint (_ _))).
Qed.

Lemma of_int_head n :
  exists c rest, PyStr.of_int n = String c rest /\ sign_or_digit c = true.
Proof.
  pose proof (sign_or_digit_of_int n) as H.
  assert (Hne : PyStr.of_int n <> "").
  { unfold PyStr.of_int, NilZero.string_of_int, NilZero.string_of_uint.
    destruct (Z.to_int n) as [d|d]; destruct d; discriminate. }
  destruct (PyStr.of_int n) as [|c rest]; [done|].
  apply andb_prop in H as [Hc _]. eauto.
Qed.

Lemma clean_of_int n : clean (PyStr.of_int n) = true.
Proof.
  eapply str_all_impl; [apply sign_or_digit_clean|].
  apply sign_or_digit_of_int.
Qed.

Lemma is_digit_digit_char d : 0 <= d < 10 -> is_digit (PyStr.digit_char d) = true.
Proof.
  intros Hd.
  assert (d = 0 \/ d = 1 \/ d = 2 \/ d = 3 \/ d = 4 \/ d = 5 \/ d = 6
          \/ d = 7 \/ d = 8 \/ d = 9) as Hcases by lia.
  repeat destruct Hcases as [->|Hcases]; try subst d; reflexivity.
Qed.

Lemma clean_fixed_digits k n : clean (PyStr.fixed_digits k n) = true.
Proof.
  revert n. induction k as [|k IH]; intros n; [reflexivity|].
  simpl. rewrite clean_app, IH. unfold clean. simpl.
  rewrite sign_or_digit_clean; [reflexivity|].
  unfold sign_or_digit.
  rewrite is_digit_digit_char by (apply Z.mod_pos_bound; lia). reflexivity.
Qed.

(** ** Printing floats *)

Lemma clean_render prec n : clean (PyFloat.render prec n) = true.
Proof.
  unfold PyFloat.render.
  by rewrite !clean_app, clean_of_int, clean_fixed_digits.
Qed.

Lemma clean_format_f prec x : clean (PyFloat.format_f prec x) = true.
Proof.
  unfold PyFloat.format_f.
  destruct (Prim2SF x) as [s|s| |s m e]; try reflexivity;
    rewrite clean_app, ?clean_render; by destruct s.
Qed.

Lemma render_two_decimals (s : bool) n :
  two_decimals (PyFloat.sign_str s +:+ PyFloat.render 2 n).
Proof.
  right; right; right.
  exists (PyFloat.sign_str s +:+ PyStr.of_int (n / 100)),
         (PyStr.digit_char (n mod 100 / 10 mod 10)),
         (PyStr.digit_char (n mod 100 mod 10)).
  split; [|split; [|split]].
  - unfold PyFloat.render. by rewrite str_app_assoc.
  - rewrite str_all_app, sign_or_digit_of_int. by destruct s.
  - apply is_digit_digit_char, Z.mod_pos_bound. lia.
  - apply is_digit_digit_char, Z.mod_pos_bound. lia.
Qed.

Lemma format_f_two_decimals x : two_decimals (PyFloat.format_f 2 x).
Proof.
  unfold PyFloat.format_f.
  destruct (Prim2SF x) as [s|s| |s m e].
  - apply render_two_decimals.
  - destruct s; unfold two_decimals; auto.
  - by left.
  - apply render_two_decimals.
Qed.

(** ** Joining tags *)

(** A piece free of underscores, followed by nothing or by an underscore
    and more, is determined by the whole. *)
Lemma clean_prefix_unique a b r1 r2 :
  clean a = true -> clean b = true ->
  (r1 = "" \/ exists r, r1 = String "_" r) ->
  (r2 = "" \/ exists r, r2 = String "_" r) ->
  a +:+ r1 = b +:+ r2 -> a = b /\ r1 = r2.
Proof.
  revert b. induction a as [|c a IH]; intros [|c' b] Ha Hb H1 H2 H.
  - done.
  - change ("" +:+ r1) with r1 in H. rewrite str_app_cons in H.
    destruct H1 as [->|[r ->]]; [done|].
    injection H as <- _. done.
  - change ("" +:+ r2) with r2 in H. rewrite str_app_cons in H.
    destruct H2 as [->|[r ->]]; [done|].
    injection H as -> _. done.
  - rewrite !str_app_cons in H. injection H as -> H.
    apply andb_prop in Ha as [_ Ha]. apply andb_prop in Hb as [_ Hb].
    destruct (IH b Ha Hb H1 H2 H) as [-> ->]. done.
Qed.

Lemma join_cons sep x l :
  PyStr.join sep (x :: l) =
  x +:+ match l with [] => "" | _ => sep +:+ PyStr.join sep l end.
Proof. destruct l; simpl; [by rewrite str_app_nil_r|reflexivity]. Qed.

(** Joining with underscores loses nothing on non-empty lists of pieces
    free of underscores. *)
Lemma join_underscore_inj l1 l2 :
  Forall (fun t => clean t = true) l1 ->
  Forall (fun t => clean t = true) l2 ->
  l1 <> [] -> l2 <> [] ->
  PyStr.join "_" l1 = PyStr.join "_" l2 -> l1 = l2.
Proof.
  intros H1. revert l2.
  induction H1 as [|a l1 Ha H1 IH]; intros l2 H2 Hn1 Hn2 H; [done|].
  destruct H2 as [|b l2 Hb H2]; [done|].
  rewrite !join_cons in H.
  apply clean_prefix_unique in H as [-> Hrest]; try assumption.
  - f_equal. destruct l1 as [|a1 l1], l2 as [|b1 l2]; try done.
    change ("_" +:+ ?s) with (String "_" s) in Hrest.
    injection Hrest as Hrest. by apply IH.
  - destruct l1; [by left|right]. eexists. reflexivity.
  - destruct l2; [by left|right]. eexists. reflexivity.
Qed.

(** ** Naming *)

Lemma build_features_slots so d f r :
  build_features so d f r = omap id (tag_slots so d f r).
Proof.
  unfold build_features, tag_slots.
  destruct (if_set so), (if_set d), (if_set f), r as [[w h]|]; reflexivity.
Qed.

Lemma build_filename_stem basename so d f r :
  _build_filename basename so d f r =
    (match build_features so d f r with
     | [] => (OsPath.splitext basename).1
     | tags =>
         (OsPath.splitext basename).1 +:+ "_[" +:+ PyStr.join "_" tags +:+ "]"
     end,
     (OsPath.splitext basename).2).
Proof.
  unfold _build_filename. destruct (OsPath.splitext basename) as [b e].
  destruct (build_features so d f r); reflexivity.
Qed.

Lemma build_filename_ext basename so d f r :
  (_build_filename basename so d f r).2 = (OsPath.splitext basename).2.
Proof. rewrite build_filename_stem. reflexivity. Qed.

(** C2: for video.mp4 with start_offset 1.5, duration 2.0, fps 30.0 and
    resolution (640, 480) the name builder returns the stem
    video_[ss1.50_t2.00_fps30.00_640x480]; with no parameter set the stem
    is the base name with its extension stripped; for every parameter set
    the tags are the present ones among start offset, duration, fps,
    resolution in that fixed order, the resolution as WIDTHxHEIGHT, joined
    by underscores inside brackets after the stripped base name; and a
    numeric tag is its prefix followed by the value printed with two
    decimals. *)
Theorem build_filename_naming :
  _build_filename "video.mp4" (Some 1.5%float) (Some 2%float)
                  (Some 30%float) (Some (640, 480))
    = ("video_[ss1.50_t2.00_fps30.00_640x480]", ".mp4")
  /\ (forall basename,
        _build_filename basename None None None None
          = OsPath.splitext basename)
  /\ (forall basename so d f r,
        let tags := omap id (tag_slots so d f r) in
        _build_filename basename so d f r =
          (match tags with
           | [] => (OsPath.splitext basename).1
           | _ =>
               (OsPath.splitext basename).1
                 +:+ "_[" +:+ PyStr.join "_" tags +:+ "]"
           end,
           (OsPath.splitext basename).2))
  /\ (forall x, two_decimals (PyFloat.format_f 2 x)).
Proof.
  split; [vm_compute; reflexivity|]. split; [|split].
  - intros basename. rewrite build_filename_stem. simpl.
    destruct (OsPath.splitext basename); reflexivity.
  - intros basename so d f r tags. subst tags.
    rewrite build_filename_stem, build_features_slots.
    destruct (omap id (tag_slots so d f r)); reflexivity.
  - apply format_f_two_decimals.
Qed.

(** ** Collisions of output names *)

(** Every tag is free of underscores. *)
Lemma clean_build_features so d f r :
  Forall (fun t => clean t = true) (build_features so d f r).
Proof.
  rewrite build_features_slots. unfold tag_slots.
  destruct (if_set so), (if_set d), (if_set f), r as [[w h]|]; simpl;
    repeat constructor;
    rewrite ?clean_app, ?clean_format_f, ?clean_of_int; reflexivity.
Qed.

Lemma sign_or_digit_class c rest :
  sign_or_digit c = true -> tag_class (String c rest) = 3%nat.
Proof.
  destruct c as [[] [] [] [] [] [] [] []]; try reflexivity; discriminate.
Qed.

Lemma tag_class_resolution w h :
  tag_class (PyStr.of_int w +:+ "x" +:+ PyStr.of_int h) = 3%nat.
Proof.
  destruct (of_int_head w) as (c & rest & -> & Hc).
  rewrite str_app_cons. by apply sign_or_digit_class.
Qed.

Lemma reslot_tag_slots so d f r :
  reslot (omap id (tag_slots so d f r)) = tag_slots so d f r.
Proof.
  unfold tag_slots, reslot.
  destruct (if_set so), (if_set d), (if_set f), r as [[w h]|];
    cbn [omap list_omap fmap option_fmap option_map id find_class mbind
         option_bind fst snd];
    rewrite ?tag_class_resolution; reflexivity.
Qed.

(** Equal output names come from equal tag lists. *)
Lemma build_filename_features basename so1 d1 f1 r1 so2 d2 f2 r2 :
  _build_filename basename so1 d1 f1 r1
    = _build_filename basename so2 d2 f2 r2 ->
  build_features so1 d1 f1 r1 = build_features so2 d2 f2 r2.
Proof.
  intros Heq. rewrite !build_filename_stem in Heq.
  pose proof (clean_build_features so1 d1 f1 r1) as H1.
  pose proof (clean_build_features so2 d2 f2 r2) as H2.
  destruct (build_features so1 d1 f1 r1) as [|a1 l1],
           (build_features so2 d2 f2 r2) as [|a2 l2];
    apply (f_equal fst) in Heq; cbn [fst] in Heq.
  - reflexivity.
  - rewrite <- (str_app_nil_r (OsPath.splitext basename).1) in Heq at 1.
    apply (inj (String.app _)) in Heq. discriminate.
  - rewrite <- (str_app_nil_r (OsPath.splitext basename).1) in Heq at 2.
    apply (inj (String.app _)) in Heq. discriminate.
  - apply (inj (String.app _)) in Heq. apply (inj (String.app _)) in Heq.
    apply str_app_inv_tail in Heq.
    by apply join_underscore_inj.
Qed.

(** C4, as stated, fails: for video.mp4 the durations 1.0009765625 and
    1.001953125 are distinct parameter sets with one output name (both
    print as 1.00), and so are a start offset of zero and none at all. *)
Lemma distinct_parameters_collide :
  ((None : option float, Some 1.0009765625%float, None : option float,
    None : option (Z * Z))
   <> (None, Some 1.001953125%float, None, None)
   /\ _build_filename "video.mp4" None (Some 1.0009765625%float) None None
      = _build_filename "video.mp4" None (Some 1.001953125%float) None None)
  /\ ((Some 0%float, None : option float, None : option float,
       None : option (Z * Z))
      <> (None, None, None, None)
      /\ _build_filename "video.mp4" (Some 0%float) None None None
         = _build_filename "video.mp4" None None None None).
Proof.
  split; split; try (vm_compute; reflexivity).
  - intros H.
    apply (f_equal (fun p => match p.1.1.2 with
                             | Some x => (x =? 1.0009765625)%float
                             | None => false
                             end)) in H.
    vm_compute in H. discriminate.
  - discriminate.
Qed.

(** C4, amended: for every input base name, two parameter sets that
    differ in some tag slot get distinct output names.  A slot is empty
    for a parameter that is unset or zero, and otherwise holds the tag as
    printed, numeric values with two decimals. *)
Theorem distinct_tags_distinct_names basename so1 d1 f1 r1 so2 d2 f2 r2 :
  tag_slots so1 d1 f1 r1 <> tag_slots so2 d2 f2 r2 ->
  _build_filename basename so1 d1 f1 r1
    <> _build_filename basename so2 d2 f2 r2.
Proof.
  intros Hne Heq. apply Hne.
  apply build_filename_features in Heq.
  rewrite !build_features_slots in Heq.
  rewrite <- (reslot_tag_slots so1 d1 f1 r1), <- (reslot_tag_slots so2 d2 f2 r2).
  by rewrite Heq.
Qed.

Lemma distinct_tags_distinct_names_witness :
  tag_slots (Some 1.5%float) None None None
    <> tag_slots None (Some 1.5%float) None None
  /\ _build_filename "video.mp4" (Some 1.5%float) None None None
       <> _build_filename "video.mp4" None (Some 1.5%float) None None.
Proof.
  assert (Htags : tag_slots (Some 1.5%float) None None None
                    <> tag_slots None (Some 1.5%float) None None)
    by (vm_compute; discriminate).
  split; [exact Htags|].
  exact (distinct_tags_distinct_names "video.mp4"
           (Some 1.5%float) None None None None (Some 1.5%float) None None
           Htags).
Defined.

(** ** Order facts on binary64 values *)

Section SpecFloatOrder.

Import SpecFloat.

Ltac sf_cases :=
  repeat match goal with
         | s : bool |- _ => destruct s
         end;
  simpl; try reflexivity; try discriminate.

Ltac sf_arith :=
  repeat match goal with
         | |- context [Pos.compare_cont Eq ?a ?b] =>
             change (Pos.compare_cont Eq a b) with (Pos.compare a b)
         end;
  repeat match goal with
         | |- context [Z.compare ?a ?b] =>
             destruct (Z.compare_spec a b)
         | |- context [Pos.compare ?a ?b] =>
             destruct (Pos.compare_spec a b)
         end;
  simpl; intros; subst; try reflexivity; try discriminate; try lia.

Lemma SFleb_trans a b c :
  SFleb a b = true -> SFleb b c = true -> SFleb a c = true.
Proof.
  unfold SFleb, SFcompare.
  destruct a as [sa|sa| |sa ma ea], b as [sb|sb| |sb mb eb],
           c as [sc|sc| |sc mc ec]; sf_cases; sf_arith.
Qed.

Lemma SFltb_leb a b : SFltb a b = true -> SFleb a b = true.
Proof.
  unfold SFltb, SFleb. destruct (SFcompare a b) as [[]|]; done.
Qed.

Lemma SFleb_total a b :
  a <> S754_nan -> b <> S754_nan -> SFltb a b = false -> SFleb b a = true.
Proof.
  unfold SFltb, SFleb, SFcompare.
  destruct a as [sa|sa| |sa ma ea], b as [sb|sb| |sb mb eb];
    intros Ha Hb; try done; sf_cases; sf_arith.
Qed.

Lemma SFleb_refl a : a <> S754_nan -> SFleb a a = true.
Proof.
  unfold SFleb, SFcompare.
  destruct a as [sa|sa| |sa ma ea]; intros Ha; try done; sf_cases; sf_arith.
Qed.

End SpecFloatOrder.

Lemma not_nan_spec x : PrimFloat.is_nan x = false -> Prim2SF x <> S754_nan.
Proof.
  unfold PrimFloat.is_nan. rewrite FloatAxioms.eqb_spec, negb_false_iff. intros H Hn.
  rewrite Hn in H. discriminate.
Qed.

Lemma float_leb_trans x y z :
  (x <=? y)%float = true -> (y <=? z)%float = true -> (x <=? z)%float = true.
Proof. rewrite !leb_spec. apply SFleb_trans. Qed.

Lemma float_ltb_leb x y : (x <? y)%float = true -> (x <=? y)%float = true.
Proof. rewrite ltb_spec, leb_spec. apply SFltb_leb. Qed.

Lemma float_leb_total x y :
  PrimFloat.is_nan x = false -> PrimFloat.is_nan y = false ->
  (x <? y)%float = false -> (y <=? x)%float = true.
Proof.
  intros Hx%not_nan_spec Hy%not_nan_spec. rewrite ltb_spec, leb_spec.
  by apply SFleb_total.
Qed.

Lemma float_leb_refl x : PrimFloat.is_nan x = false -> (x <=? x)%float = true.
Proof. intros Hx%not_nan_spec. rewrite leb_spec. by apply SFleb_refl. Qed.

(** ** The scan of [min] *)

Lemma min_from_elem cur l : PyFloat.min_from cur l ∈ cur :: l.
Proof.
  revert cur. induction l as [|y l IH]; intros cur; simpl.
  - left.
  - specialize (IH (if (y <? cur)%float then y else cur)).
    apply elem_of_cons in IH as [->|IH].
    + destruct (y <? cur)%float; [right; left|left].
    + right; right; exact IH.
Qed.

Lemma min_from_lower cur l :
  (forall x, x ∈ cur :: l -> PrimFloat.is_nan x = false) ->
  forall x, x ∈ cur :: l -> (PyFloat.min_from cur l <=? x)%float = true.
Proof.
  revert cur. induction l as [|y l IH]; intros cur Hnan x Hx; simpl.
  - apply list_elem_of_singleton in Hx as ->.
    apply float_leb_refl, Hnan. left.
  - assert (Hcur : PrimFloat.is_nan cur = false) by (apply Hnan; left).
    assert (Hy : PrimFloat.is_nan y = false) by (apply Hnan; right; left).
    set (cur' := if (y <? cur)%float then y else cur).
    assert (Hnan' : forall x, x ∈ cur' :: l -> PrimFloat.is_nan x = false).
    { intros z [->|Hz]%elem_of_cons.
      - unfold cur'. by destruct (y <? cur)%float.
      - apply Hnan. right; right; exact Hz. }
    pose proof (IH cur' Hnan') as Hle.
    assert (Hc' : (PyFloat.min_from cur' l <=? cur')%float = true)
      by (apply Hle; left).
    apply elem_of_cons in Hx as [->|[->|Hx]%elem_of_cons].
    + unfold cur' in *. destruct (y <? cur)%float eqn:E.
      * eapply float_leb_trans; [exact Hc'|]. by apply float_ltb_leb.
      * exact Hc'.
    + unfold cur' in *. destruct (y <? cur)%float eqn:E.
      * exact Hc'.
      * eapply float_leb_trans; [exact Hc'|]. by apply float_leb_total.
    + apply Hle. right; exact Hx.
Qed.

(** ** Monad and world facts *)

Lemma bind_ok {A B} (m : M A) (k : A -> M B) w a w' :
  m w = (Ok a, w') -> bind m k w = k a w'.
Proof. unfold bind. intros ->. reflexivity. Qed.

Lemma bind_raise {A B} (m : M A) (k : A -> M B) w e w' :
  m w = (Raise e, w') -> bind m k w = (Raise e, w').
Proof. unfold bind. intros ->. reflexivity. Qed.

Lemma bind_ret_r {A} (m : M A) w : (x <- m ;; ret x) w = m w.
Proof. unfold bind, ret. destruct (m w) as [[a|e] w']; reflexivity. Qed.

Lemma not_snoc_self {A} (l : list A) x : l <> l ++ [x].
Proof.
  intros H. apply (f_equal length) in H. rewrite length_app in H.
  simpl in H. lia.
Qed.

(** ** Zero-valued parameters *)

Lemma if_set_zero z : PyFloat.truthy z = false -> if_set (Some z) = None.
Proof. intros H. simpl. rewrite H. reflexivity. Qed.

(** C10: a numeric parameter that compares equal to zero is treated as an
    absent one.  For start_offset, duration and fps alike, passing such a
    value gives the same tag list and output name, the same command line
    and the same behaviour of the whole single-file encode as passing
    None. *)
Theorem zero_parameter_is_absent ffmpeg video output_dir overwrite
    save_frames (z : float) so d f res silent :
  PyFloat.truthy z = false ->
  (build_features (Some z) d f res = build_features None d f res
   /\ _build_filename video (Some z) d f res
      = _build_filename video None d f res
   /\ encode_cmd video (Some z) d f res = encode_cmd video None d f res
   /\ encode_video_single ffmpeg video output_dir overwrite save_frames
        (Some z) d f res silent
      = encode_video_single ffmpeg video output_dir overwrite save_frames
          None d f res silent)
  /\ (build_features so (Some z) f res = build_features so None f res
      /\ _build_filename video so (Some z) f res
         = _build_filename video so None f res
      /\ encode_cmd video so (Some z) f res = encode_cmd video so None f res
      /\ encode_video_single ffmpeg video output_dir overwrite save_frames
           so (Some z) f res silent
         = encode_video_single ffmpeg video output_dir overwrite save_frames
             so None f res silent)
  /\ (build_features so d (Some z) res = build_features so d None res
      /\ _build_filename video so d (Some z) res
         = _build_filename video so d None res
      /\ encode_cmd video so d (Some z) res = encode_cmd video so d None res
      /\ encode_video_single ffmpeg video output_dir overwrite save_frames
           so d (Some z) res silent
         = encode_video_single ffmpeg video output_dir overwrite save_frames
             so d None res silent).
Proof.
  intros Hz%if_set_zero.
  unfold encode_video_single, output_path_of, _build_filename,
    build_features, encode_cmd.
  rewrite !Hz. repeat split; reflexivity.
Qed.

Lemma zero_parameter_is_absent_witness :
  PyFloat.truthy 0%float = false
  /\ encode_video_single demo_ffmpeg "in/a.mp4" "out" false true
       (Some 0%float) None (Some 30%float) None true
     = encode_video_single demo_ffmpeg "in/a.mp4" "out" false true
         None None (Some 30%float) None true.
Proof.
  split; [reflexivity|].
  apply (zero_parameter_is_absent demo_ffmpeg "in/a.mp4" "out" false true
           0%float None None (Some 30%float) None true).
  reflexivity.
Defined.

(** ** Making directories *)

Lemma mkdir_all_mono refuse dirs :
  forall m e m', mkdir_all refuse dirs m = (e, m') -> m ⊆ m'.
Proof.
  induction dirs as [|p rest IH]; intros m e m' H; simpl in H.
  - by injection H as _ <-.
  - destruct (m !! p) as [[|]|] eqn:Hp.
    + by injection H as _ <-.
    + by eapply IH.
    + destruct (refuse m p); [by injection H as _ <-|].
      apply IH in H. etrans; [|exact H]. by apply insert_subseteq.
Qed.

Lemma mkdir_all_last refuse l p :
  forall m m', mkdir_all refuse (l ++ [p]) m = (None, m') ->
               m' !! p = Some Dir.
Proof.
  induction l as [|x l IH]; intros m m' H; simpl in H.
  - destruct (m !! p) as [[|]|] eqn:Hp; [discriminate| |].
    + by injection H as <-.
    + destruct (refuse m p); [discriminate|]. injection H as <-.
      apply lookup_insert_eq.
  - destruct (m !! x) as [[|]|]; [discriminate|by eapply IH|].
    destruct (refuse m x); [discriminate|by eapply IH].
Qed.

Lemma mkdir_all_error refuse dirs :
  forall m e m', mkdir_all refuse dirs m = (Some e, m') ->
                 makedirs_error e = true.
Proof.
  induction dirs as [|p rest IH]; intros m e m' H; simpl in H; [done|].
  destruct (m !! p) as [[|]|].
  - injection H as <- _. by destruct rest.
  - by eapply IH.
  - destruct (refuse m p) as [k|]; [|by eapply IH].
    injection H as <- _. by destruct k.
Qed.

Lemma os_makedirs_dir path w :
  fs w !! path = Some Dir -> os_makedirs path w = (Ok tt, w).
Proof. intros Hp. unfold os_makedirs. by rewrite Hp. Qed.

Lemma os_makedirs_file path w :
  fs w !! path = Some File ->
  os_makedirs path w = (Raise (FileExistsError path), w).
Proof. intros Hp. unfold os_makedirs. by rewrite Hp. Qed.

(** On an absent path [os.makedirs] only adds to the file system, touches
    nothing else of the world, leaves a directory at the path when it
    returns, and raises only its own exceptions. *)
Lemma os_makedirs_absent path w r w1 :
  fs w !! path = None ->
  os_makedirs path w = (r, w1) ->
  calls w1 = calls w
  /\ refuses w1 = refuses w
  /\ fs w ⊆ fs w1
  /\ (r = Ok tt -> fs w1 !! path = Some Dir)
  /\ (forall e, r = Raise e -> makedirs_error e = true).
Proof.
  intros Hp. unfold os_makedirs. rewrite Hp.
  destruct (String.eqb path "").
  { intros [= <- <-]. split; [done|]. split; [done|]. split; [done|].
    split; [discriminate|]. by intros e [= <-]. }
  destruct (mkdir_all (refuses w) (parents path ++ [path]) (fs w))
    as [[e|] m] eqn:E; intros [= <- <-]; cbn [fs calls refuses].
  - split; [done|]. split; [done|].
    split; [by eapply mkdir_all_mono|]. split; [discriminate|].
    intros e' [= <-]. by eapply mkdir_all_error.
  - split; [done|]. split; [done|].
    split; [by eapply mkdir_all_mono|].
    split; [intros _; by eapply mkdir_all_last|]. discriminate.
Qed.

Lemma os_makedirs_mono path w r w1 :
  os_makedirs path w = (r, w1) -> fs w ⊆ fs w1 /\ calls w1 = calls w.
Proof.
  destruct (fs w !! path) as [[|]|] eqn:Hp.
  - rewrite os_makedirs_file by done. by intros [= <- <-].
  - rewrite os_makedirs_dir by done. by intros [= <- <-].
  - intros H. apply os_makedirs_absent in H as (? & _ & ? & _); done.
Qed.

(** ** Single-file encode: the ways a call can go *)

Lemma check_call_spec ffmpeg cmd_str silent w r w' :
  check_call ffmpeg cmd_str silent w = (r, w') ->
  exists c,
    calls w' = calls w ++ [c]
    /\ call_fs c = fs w /\ call_silent c = silent /\ call_cmd c = cmd_str
    /\ call_fs_after c = fs w'
    /\ (call_result c, fs w') = ffmpeg cmd_str silent w
    /\ r = match raised_by c with None => Ok tt | Some e => Raise e end.
Proof.
  unfold check_call. destruct (ffmpeg cmd_str silent w) as [pr fs'] eqn:E.
  intros H. exists (Call cmd_str silent (fs w) fs' pr).
  unfold raised_by. simpl.
  destruct pr as [n|]; [destruct (n =? 0)|]; inversion H; subst; simpl; auto 10.
Qed.

Lemma check_call_then_ret ffmpeg cmd_str (silent : bool) (path : string) w r w' :
  ((if silent then check_call ffmpeg cmd_str true
    else check_call ffmpeg cmd_str false) ;; ret path) w = (r, w') ->
  exists c,
    calls w' = calls w ++ [c]
    /\ call_fs c = fs w /\ call_silent c = silent /\ call_cmd c = cmd_str
    /\ call_fs_after c = fs w'
    /\ (call_result c, fs w') = ffmpeg cmd_str silent w
    /\ r = match raised_by c with None => Ok path | Some e => Raise e end.
Proof.
  unfold bind, ret.
  replace (if silent then check_call ffmpeg cmd_str true
           else check_call ffmpeg cmd_str false)
    with (check_call ffmpeg cmd_str silent) by (destruct silent; reflexivity).
  destruct (check_call ffmpeg cmd_str silent w) as [r0 w0] eqn:Hc.
  apply check_call_spec in Hc
    as (c & Hcalls & Hfs & Hsil & Hcmd & Hafter & Hrun & Hr).
  intros H. exists c. subst r0.
  destruct (raised_by c); inversion H; subst; auto 10.
Qed.

Lemma raised_by_none c : raised_by c = None <-> call_result c = Exited 0.
Proof.
  unfold raised_by. destruct (call_result c) as [n|].
  - destruct (Z.eqb_spec n 0); split; intros H; try discriminate; subst;
      try reflexivity. congruence.
  - split; discriminate.
Qed.

Lemma encode_video_single_outcome ffmpeg video output_dir overwrite
    save_frames so d f res silent w r w' :
  encode_video_single ffmpeg video output_dir overwrite save_frames
    so d f res silent w = (r, w') ->
  encode_outcome w (output_path_of video output_dir save_frames so d f res)
    overwrite save_frames silent r w'.
Proof.
  unfold encode_video_single.
  set (path := output_path_of video output_dir save_frames so d f res).
  set (cmd := encode_cmd video so d f res).
  intros H.
  assert (Hskip : negb overwrite && stat_ok w path = true \/
                  negb overwrite && stat_ok w path = false)
    by (destruct (negb overwrite && stat_ok w path); auto).
  destruct Hskip as [Hskip|Hskip].
  - apply andb_prop in Hskip as [Ho Hs]. apply negb_true_iff in Ho. subst.
    unfold bind, os_path_exists, ret in H. simpl in H. rewrite Hs in H.
    inversion H; subst. by constructor.
  - assert (Hgo :
      (co <- (if save_frames then
                os_makedirs path ;;
                ret (cmd ++ ["-q:v"; "4"], OsPath.join path "%04d.jpeg")
              else ret (cmd, path)) ;;
       (if silent then check_call ffmpeg (PyStr.join " " (co.1 ++ [co.2])) true
        else check_call ffmpeg (PyStr.join " " (co.1 ++ [co.2])) false) ;;
       ret path) w = (r, w')).
    { destruct overwrite; simpl in *; [exact H|].
      unfold bind at 1 in H. unfold os_path_exists in H.
      rewrite Hskip in H. exact H. }
    clear H. destruct save_frames.
    + unfold bind at 1 in Hgo. unfold bind at 1 in Hgo.
      destruct (fs w !! path) as [[|]|] eqn:Hp.
      * rewrite os_makedirs_file in Hgo by done.
        injection Hgo as <- <-. by constructor.
      * rewrite os_makedirs_dir in Hgo by done.
        unfold ret at 1 in Hgo. simpl in Hgo.
        apply check_call_then_ret in Hgo
          as (c & Hcalls & Hfs & Hsil & _ & Hafter & _ & ->).
        eapply Invoked; eauto;
          first [ by rewrite Hfs | (intros _; by rewrite Hfs) | discriminate ].
      * destruct (os_makedirs path w) as [rm w1] eqn:Hmk.
        apply os_makedirs_absent in Hmk
          as (Hcw & _ & Hsub & Hdir & Herr); [|done].
        destruct rm as [[]|e].
        -- unfold ret at 1 in Hgo. simpl in Hgo.
           apply check_call_then_ret in Hgo
             as (c & Hcalls & Hfs & Hsil & _ & Hafter & _ & ->).
           eapply Invoked; eauto;
             first [ by rewrite Hcalls, Hcw | by rewrite Hfs
                   | (intros _; rewrite Hfs; by apply Hdir) | discriminate ].
        -- injection Hgo as <- <-. eapply DirFailed; eauto.
    + unfold bind at 1 in Hgo. unfold ret at 1 in Hgo. simpl in Hgo.
      apply check_call_then_ret in Hgo
        as (c & Hcalls & Hfs & Hsil & _ & Hafter & _ & ->).
      eapply Invoked; eauto;
        first [ by rewrite Hfs | discriminate ].
Qed.

(** A call that returns, returns its output path, and it makes at most
    one external invocation. *)
Lemma encode_video_single_ok ffmpeg video output_dir overwrite save_frames
    so d f res silent w p w' :
  encode_video_single ffmpeg video output_dir overwrite save_frames
    so d f res silent w = (Ok p, w') ->
  p = output_path_of video output_dir save_frames so d f res
  /\ (length (calls w') <= S (length (calls w)))%nat.
Proof.
  intros H. apply encode_video_single_outcome in H.
  inversion H as [| | |c w'' Hns Hcalls Hsil Hsub Hdir Hvid Hafter Hr]; subst.
  - split; [reflexivity|lia].
  - destruct (raised_by c); inversion Hr; subst.
    split; [reflexivity|]. rewrite Hcalls, length_app. simpl. lia.
Qed.

(** A call whose invocation record grew by [c] reached the transcoder
    with exactly that invocation. *)
Lemma encode_video_single_invoked ffmpeg video output_dir overwrite
    save_frames so d f res silent w r w' c :
  encode_video_single ffmpeg video output_dir overwrite save_frames
    so d f res silent w = (r, w') ->
  calls w' = calls w ++ [c] ->
  let path := output_path_of video output_dir save_frames so d f res in
  negb overwrite && stat_ok w path = false
  /\ call_silent c = silent
  /\ fs w ⊆ call_fs c
  /\ (save_frames = true -> call_fs c !! path = Some Dir)
  /\ (save_frames = false -> call_fs c = fs w)
  /\ call_fs_after c = fs w'
  /\ r = match raised_by c with None => Ok path | Some e => Raise e end.
Proof.
  intros H Hc path. apply encode_video_single_outcome in H. fold path in H.
  inversion H
    as [| |e w'' _ _ _ _ Hcw _
        |c' w'' Hns Hcalls Hsil Hsub Hdir Hvid Hafter Hr]; subst;
    try (by apply not_snoc_self in Hc).
  - rewrite Hcw in Hc. by apply not_snoc_self in Hc.
  - rewrite Hcalls in Hc. apply app_inv_head in Hc. inversion Hc; subst.
    auto 10.
Qed.

(** ** Skipping an output that is already there *)

(** C3: with overwrite off, a call whose output path already exists
    returns that path at once and leaves the world as it is: no external
    invocation, no change to the file system.  Hence when that world is the
    one a first identical call left behind, the two consecutive calls
    return the same path and make at most one invocation together. *)
Theorem skip_existing_output ffmpeg video output_dir save_frames
    so d f res silent w :
  let path := output_path_of video output_dir save_frames so d f res in
  let encode :=
    encode_video_single ffmpeg video output_dir false save_frames
                        so d f res silent in
  stat_ok w path = true ->
  encode w = (Ok path, w)
  /\ (forall w0 p,
        encode w0 = (Ok p, w) ->
        (p1 <- encode ;; p2 <- encode ;; ret (p1, p2)) w0
          = (Ok (path, path), w)
        /\ (length (calls w) <= S (length (calls w0)))%nat).
Proof.
  intros path encode Hex.
  assert (Hskip : encode w = (Ok path, w)).
  { unfold encode, encode_video_single. fold path.
    unfold bind, os_path_exists, ret. simpl. rewrite Hex. reflexivity. }
  split; [exact Hskip|].
  intros w0 p Hfirst.
  pose proof Hfirst as Hok. unfold encode in Hok.
  apply encode_video_single_ok in Hok as [-> Hlen]. fold path.
  split; [|exact Hlen].
  rewrite (bind_ok _ _ _ _ _ Hfirst).
  rewrite (bind_ok _ _ _ _ _ Hskip). reflexivity.
Qed.

Lemma skip_existing_output_witness :
  let w := (encode_video_single demo_ffmpeg "in/a.mp4" "out" false false
              None None None None true demo_world).2 in
  stat_ok w "out/a.mp4" = true
  /\ encode_video_single demo_ffmpeg "in/a.mp4" "out" false false
       None None None None true w = (Ok "out/a.mp4", w).
Proof.
  split; [vm_compute; reflexivity|].
  apply (skip_existing_output demo_ffmpeg "in/a.mp4" "out" false
           None None None None true).
  vm_compute; reflexivity.
Defined.

(** ** Paths *)

Lemma rfind_lower c s : -1 <= PyStr.rfind c s.
Proof.
  induction s as [|a s IH]; simpl; [lia|].
  destruct (0 <=? PyStr.rfind c s) eqn:E; [apply Z.leb_le in E; lia|].
  destruct (Ascii.eqb a c); lia.
Qed.

Lemma rfind_absent c s :
  PyStr.rfind c s = -1 -> str_all (fun a => negb (Ascii.eqb a c)) s = true.
Proof.
  induction s as [|a s IH]; simpl; [done|].
  destruct (0 <=? PyStr.rfind c s) eqn:E.
  - apply Z.leb_le in E. lia.
  - apply Z.leb_gt in E. pose proof (rfind_lower c s).
    destruct (Ascii.eqb a c); [discriminate|]. intros _. apply IH. lia.
Qed.

Lemma basename_no_slash p :
  str_all (fun a => negb (Ascii.eqb a "/"%char)) (OsPath.basename p) = true.
Proof.
  unfold OsPath.basename. induction p as [|a p IH]; [reflexivity|].
  cbn [PyStr.rfind]. pose proof (rfind_lower "/"%char p) as Hlow.
  destruct (0 <=? PyStr.rfind "/"%char p) eqn:E.
  - apply Z.leb_le in E.
    replace (Z.to_nat (PyStr.rfind "/"%char p + 1 + 1))
      with (S (Z.to_nat (PyStr.rfind "/"%char p + 1))) by lia.
    exact IH.
  - apply Z.leb_gt in E.
    assert (Hr : PyStr.rfind "/"%char p = -1) by lia.
    destruct (Ascii.eqb a "/"%char) eqn:Ea.
    + simpl. by apply rfind_absent.
    + simpl. rewrite Ea. simpl. by apply rfind_absent.
Qed.

Lemma startswith_clear (P : Ascii.ascii -> bool) s c :
  P c = false -> str_all P s = true -> PyStr.startswith s c = false.
Proof.
  intros Hc. destruct s as [|a s]; [done|]. simpl.
  intros [Ha _]%andb_prop. destruct (Ascii.eqb_spec a c); [congruence|done].
Qed.

Lemma startswith_app s t c :
  PyStr.startswith (s +:+ t) c
  = match s with "" => PyStr.startswith t c | _ => PyStr.startswith s c end.
Proof. by destruct s. Qed.

Lemma str_all_take P n s : str_all P s = true -> str_all P (PyStr.take n s) = true.
Proof.
  revert s. induction n as [|n IH]; intros [|a s]; try done.
  simpl. intros [Ha Hs]%andb_prop. by rewrite Ha, IH.
Qed.

Lemma str_all_drop P n s : str_all P s = true -> str_all P (PyStr.drop n s) = true.
Proof.
  revert s. induction n as [|n IH]; intros [|a s]; try done.
  simpl. intros [Ha Hs]%andb_prop. by apply IH.
Qed.

Lemma splitext_no_slash p :
  str_all (fun a => negb (Ascii.eqb a "/"%char)) p = true ->
  str_all (fun a => negb (Ascii.eqb a "/"%char)) (OsPath.splitext p).1 = true
  /\ str_all (fun a => negb (Ascii.eqb a "/"%char)) (OsPath.splitext p).2
     = true.
Proof.
  intros Hp. unfold OsPath.splitext. destruct (_ && _); cbn [fst snd].
  - split; [by apply str_all_take|by apply str_all_drop].
  - done.
Qed.

(** The name built for an output never begins with a slash. *)
Lemma output_name_not_absolute video (save_frames : bool) so d f res :
  let name :=
    (_build_filename (OsPath.basename video) so d f res).1
      +:+ (if save_frames then ""
           else (_build_filename (OsPath.basename video) so d f res).2) in
  PyStr.startswith name "/"%char = false.
Proof.
  intros name. unfold name. rewrite build_filename_stem. cbn [fst snd].
  destruct (splitext_no_slash _ (basename_no_slash video)) as [Hb He].
  set (P := fun a => negb (Ascii.eqb a "/"%char)) in *.
  assert (Hext : PyStr.startswith
                   (if save_frames then ""
                    else (OsPath.splitext (OsPath.basename video)).2)
                   "/"%char = false).
  { destruct save_frames; [done|]. by apply (startswith_clear P). }
  set (base := (OsPath.splitext (OsPath.basename video)).1) in *.
  assert (Hbase : PyStr.startswith base "/"%char = false)
    by (by apply (startswith_clear P)).
  rewrite startswith_app.
  destruct (build_features so d f res) as [|t ts].
  - destruct base; [exact Hext|exact Hbase].
  - set (tags := "_[" +:+ PyStr.join "_" (t :: ts) +:+ "]").
    assert (Hsw : PyStr.startswith (base +:+ tags) "/"%char = false).
    { rewrite startswith_app. destruct base; [reflexivity|exact Hbase]. }
    destruct (base +:+ tags) eqn:Hs; [|exact Hsw].
    destruct base; discriminate.
Qed.

(** [rfind] on a string without the character, its upper bound, and its
    value on a concatenation. *)
Lemma rfind_none c s :
  str_all (fun a => negb (Ascii.eqb a c)) s = true -> PyStr.rfind c s = -1.
Proof.
  induction s as [|a s IH]; cbn [PyStr.rfind str_all]; [done|].
  intros [Ha Hs]%andb_prop. rewrite (IH Hs). cbn.
  apply negb_true_iff in Ha. by rewrite Ha.
Qed.

Lemma rfind_upper c s : PyStr.rfind c s < Z.of_nat (String.length s).
Proof.
  induction s as [|a s IH]; cbn [PyStr.rfind String.length]; [lia|].
  rewrite Nat2Z.inj_succ.
  destruct (0 <=? PyStr.rfind c s); [lia|]. destruct (Ascii.eqb a c); lia.
Qed.

Lemma rfind_app c s t :
  PyStr.rfind c (s +:+ t)
  = if 0 <=? PyStr.rfind c t
    then Z.of_nat (String.length s) + PyStr.rfind c t
    else PyStr.rfind c s.
Proof.
  induction s as [|a s IH].
  - change ("" +:+ t) with t. cbn [String.length PyStr.rfind].
    destruct (0 <=? PyStr.rfind c t) eqn:E; [lia|].
    apply Z.leb_gt in E. pose proof (rfind_lower c t). lia.
  - rewrite str_app_cons. cbn [PyStr.rfind String.length]. rewrite IH.
    destruct (0 <=? PyStr.rfind c t) eqn:E; [|reflexivity].
    apply Z.leb_le in E.
    replace (0 <=? Z.of_nat (String.length s) + PyStr.rfind c t) with true
      by (symmetry; apply Z.leb_le; lia).
    lia.
Qed.

(** The last occurrence of a character starts a suffix that has no other
    occurrence. *)
Lemma rfind_drop c s :
  0 <= PyStr.rfind c s ->
  exists e, PyStr.drop (Z.to_nat (PyStr.rfind c s)) s = String c e
            /\ str_all (fun a => negb (Ascii.eqb a c)) e = true.
Proof.
  induction s as [|a s IH]; cbn [PyStr.rfind]; [lia|].
  destruct (0 <=? PyStr.rfind c s) eqn:E.
  - apply Z.leb_le in E. intros _. destruct (IH E) as (e & Hd & He).
    exists e. split; [|done].
    replace (Z.to_nat (PyStr.rfind c s + 1))
      with (S (Z.to_nat (PyStr.rfind c s))) by lia.
    exact Hd.
  - apply Z.leb_gt in E. pose proof (rfind_lower c s).
    destruct (Ascii.eqb_spec a c) as [->|]; [|lia]. intros _.
    exists s. split; [reflexivity|]. apply rfind_absent. lia.
Qed.

Lemma take_app_length s t : PyStr.take (String.length s) (s +:+ t) = s.
Proof.
  induction s as [|a s IH]; [by destruct t|].
  rewrite str_app_cons. cbn [String.length PyStr.take]. by rewrite IH.
Qed.

Lemma drop_app_length s t : PyStr.drop (String.length s) (s +:+ t) = t.
Proof.
  induction s as [|a s IH]; [by destruct t|].
  rewrite str_app_cons. cbn [String.length PyStr.drop]. exact IH.
Qed.

Lemma take_add i n p :
  PyStr.take (i + n) p = PyStr.take i p +:+ PyStr.take n (PyStr.drop i p).
Proof.
  revert p. induction i as [|i IH]; intros p.
  - by destruct p.
  - destruct p as [|a p]; [by destruct n|].
    cbn [Nat.add PyStr.take PyStr.drop]. by rewrite str_app_cons, IH.
Qed.

Lemma drop_in_range i p :
  (i < String.length p)%nat -> exists c rest, PyStr.drop i p = String c rest.
Proof.
  revert p. induction i as [|i IH]; intros [|a p] Hi; simpl in Hi; try lia.
  - eauto.
  - apply IH. lia.
Qed.

(** The scan for a character other than the dot: it succeeds when there
    is one in its range, and when it succeeds the characters up to the end
    of its range contain one. *)
Lemma has_non_dot_at p i n k c rest :
  (i <= k < i + n)%nat -> PyStr.drop k p = String c rest -> c <> "."%char ->
  OsPath.has_non_dot p i n = true.
Proof.
  revert i. induction n as [|n IH]; intros i Hk Hd Hc; [lia|].
  cbn [OsPath.has_non_dot].
  destruct (negb (String.eqb (PyStr.char_at p i) ".")) eqn:E; [reflexivity|].
  apply IH; [|done..].
  destruct (decide (i = k)) as [->|]; [|lia].
  unfold PyStr.char_at in E. rewrite Hd in E. cbn in E.
  destruct (Ascii.eqb_spec c "."%char); [done|discriminate].
Qed.

Lemma has_non_dot_split p i n :
  (i + n <= String.length p)%nat -> OsPath.has_non_dot p i n = true ->
  exists r1 c r2, PyStr.take (i + n) p = r1 +:+ String c r2 /\ c <> "."%char.
Proof.
  revert i. induction n as [|n IH]; intros i Hlen H; [done|].
  cbn [OsPath.has_non_dot] in H.
  destruct (negb (String.eqb (PyStr.char_at p i) ".")) eqn:E.
  - destruct (drop_in_range i p) as (c & rest & Hd); [lia|].
    exists (PyStr.take i p), c, (PyStr.take n rest). split.
    + rewrite take_add, Hd. reflexivity.
    + intros ->. unfold PyStr.char_at in E. rewrite Hd in E. discriminate.
  - replace (i + S n)%nat with (S i + n)%nat by lia. apply IH; [lia|exact H].
Qed.

(** What [splitext] returns on a name without slashes when it finds an
    extension: a stem with a character other than the dot, and an
    extension that is a dot followed by no further dot. *)
Lemma splitext_shape b :
  str_all (fun a => negb (Ascii.eqb a "/"%char)) b = true ->
  (OsPath.splitext b).2 <> "" ->
  exists r1 c r2 e,
    (OsPath.splitext b).1 = r1 +:+ String c r2 /\ c <> "."%char
    /\ (OsPath.splitext b).2 = String "." e
    /\ str_all (fun a => negb (Ascii.eqb a "."%char)) e = true.
Proof.
  intros Hb. unfold OsPath.splitext. rewrite (rfind_none _ _ Hb).
  change (-1 + 1) with 0. rewrite Z.sub_0_r. change (Z.to_nat 0) with 0%nat.
  destruct ((-1 <? PyStr.rfind "."%char b)
            && OsPath.has_non_dot b 0 (Z.to_nat (PyStr.rfind "."%char b)))
    eqn:E; cbn [fst snd]; [|done].
  intros _. apply andb_prop in E as [E1 E2]. apply Z.ltb_lt in E1.
  destruct (rfind_drop "."%char b) as (e & Hd & He); [lia|].
  pose proof (rfind_upper "."%char b) as Hup.
  apply has_non_dot_split in E2 as (r1 & c & r2 & Ht & Hc); [|lia].
  exists r1, c, r2, e. auto.
Qed.

(** A name that ends in a character other than the dot and more without
    slashes, then a dot and more without dots or slashes, is split at
    that dot, whatever comes before. *)
Lemma splitext_tail y c r2 e :
  c <> "."%char ->
  str_all (fun a => negb (Ascii.eqb a "/"%char)) (String c r2) = true ->
  str_all (fun a => negb (Ascii.eqb a "/"%char)) e = true ->
  str_all (fun a => negb (Ascii.eqb a "."%char)) e = true ->
  OsPath.splitext (y +:+ String c r2 +:+ String "." e)
  = (y +:+ String c r2, String "." e).
Proof.
  intros Hc Hr2 Hes Hed. unfold OsPath.splitext.
  set (p := y +:+ String c r2 +:+ String "." e).
  assert (Hsep : PyStr.rfind "/"%char p = PyStr.rfind "/"%char y).
  { unfold p. rewrite rfind_app, rfind_none; [reflexivity|].
    rewrite str_all_app, Hr2. cbn [str_all]. by rewrite Hes. }
  assert (Hdot : PyStr.rfind "."%char p
                 = Z.of_nat (String.length (y +:+ String c r2))).
  { unfold p. rewrite <- str_app_assoc, rfind_app.
    cbn [PyStr.rfind]. rewrite (rfind_none _ _ Hed). cbn. lia. }
  pose proof (rfind_upper "/"%char y) as Hup.
  pose proof (rfind_lower "/"%char y) as Hlow.
  rewrite Hsep, Hdot, str_app_length. cbn [String.length].
  replace (PyStr.rfind "/"%char y
           <? Z.of_nat (String.length y + S (String.length r2))) with true
    by (symmetry; apply Z.ltb_lt; lia).
  rewrite (has_non_dot_at p _ _ (String.length y) c
             (r2 +:+ String "." e)); [| lia | | exact Hc].
  - cbn [andb]. rewrite Nat2Z.id. f_equal.
    + unfold p. rewrite <- str_app_assoc.
      replace (String.length y + S (String.length r2))%nat
        with (String.length (y +:+ String c r2))
        by (rewrite str_app_length; reflexivity).
      apply take_app_length.
    + unfold p. rewrite <- str_app_assoc.
      replace (String.length y + S (String.length r2))%nat
        with (String.length (y +:+ String c r2))
        by (rewrite str_app_length; reflexivity).
      apply drop_app_length.
  - unfold p. rewrite drop_app_length. apply str_app_cons.
Qed.

(** In video mode the name of the output is split by [splitext] where
    the name of the input was, as soon as the input has an extension:
    the tags stand before the last dot and end in a bracket. *)
Lemma video_path_splitext video output_dir so d f res :
  let stem := (_build_filename (OsPath.basename video) so d f res).1 in
  let ext := (OsPath.splitext (OsPath.basename video)).2 in
  ext <> "" ->
  OsPath.splitext (OsPath.join output_dir (stem +:+ ext))
  = (OsPath.join output_dir stem, ext).
Proof.
  intros stem ext Hext.
  pose proof (output_name_not_absolute video true so d f res) as Hdir.
  pose proof (output_name_not_absolute video false so d f res) as Hfile.
  cbv zeta in Hdir, Hfile. rewrite build_filename_ext in Hfile.
  rewrite str_app_nil_r in Hdir. fold stem in Hdir. fold stem ext in Hfile.
  destruct (splitext_no_slash _ (basename_no_slash video)) as [Hbs Hes].
  destruct (splitext_shape _ (basename_no_slash video) Hext)
    as (r1 & c & r2 & e & Hb & Hc & He & Hed).
  fold ext in Hes, He. rewrite He in *. rewrite Hb in Hbs.
  rewrite str_all_app in Hbs. apply andb_prop in Hbs as [_ Hcr].
  cbn [str_all] in Hes. apply andb_prop in Hes as [_ Hes].
  assert (Hsplit : forall x,
            OsPath.splitext (x +:+ stem +:+ String "." e)
            = (x +:+ stem, String "." e)).
  { intros x. unfold stem. rewrite build_filename_stem. cbn [fst].
    rewrite Hb. destruct (build_features so d f res) as [|t ts].
    - replace (x +:+ (r1 +:+ String c r2) +:+ String "." e)
        with ((x +:+ r1) +:+ String c r2 +:+ String "." e)
        by (by rewrite !str_app_assoc).
      rewrite splitext_tail by done. by rewrite str_app_assoc.
    - set (tags := "_[" +:+ PyStr.join "_" (t :: ts)).
      replace (x +:+ ((r1 +:+ String c r2) +:+ "_[" +:+
                 PyStr.join "_" (t :: ts) +:+ "]") +:+ String "." e)
        with ((x +:+ (r1 +:+ String c r2) +:+ tags)
                +:+ String "]" "" +:+ String "." e)
        by (unfold tags; rewrite !str_app_assoc; reflexivity).
      rewrite splitext_tail by done. f_equal. unfold tags.
      by rewrite !str_app_assoc. }
  unfold OsPath.join. rewrite Hdir, Hfile.
  destruct (String.eqb output_dir "" || PyStr.endswith output_dir "/"%char).
  - apply Hsplit.
  - replace (output_dir +:+ "/" +:+ stem +:+ String "." e)
      with ((output_dir +:+ "/") +:+ stem +:+ String "." e)
      by (by rewrite !str_app_assoc).
    rewrite Hsplit. by rewrite str_app_assoc.
Qed.

(** ** Frame mode and video mode *)

(** An input without extension, encoded in video mode with a start
    offset of 1.5: the call is not skipped, it returns out/video_[ss1.50]
    and the transcoder writes that file.  The extension [splitext] finds
    in the returned path is .50], cut out of the printed offset, while the
    input has none. *)
Lemma extension_not_preserved :
  let w := World {["in/video" := File]} [] in
  let r := encode_video_single demo_ffmpeg "in/video" "out" false false
             (Some 1.5%float) None None None true w in
  negb false
    && stat_ok w (output_path_of "in/video" "out" false (Some 1.5%float)
                    None None None) = false
  /\ r.1 = Ok "out/video_[ss1.50]"
  /\ fs r.2 !! "out/video_[ss1.50]" = Some File
  /\ (OsPath.splitext "out/video_[ss1.50]").2 = ".50]"
  /\ (OsPath.splitext (OsPath.basename "in/video")).2 = "".
Proof. repeat split; vm_compute; reflexivity. Qed.

(** C8, amended: a single-file encode that is not skipped.  In frame mode
    the path it returns, when it returns, is the output directory joined
    with the stem alone, no extension appended; the directory is made
    before the transcoder is started, so either there is one invocation
    and it starts in a file system that extends the one the call found
    and has a directory at that path, or making the directory raises
    (FileExistsError, NotADirectoryError, PermissionError,
    FileNotFoundError or another OSError), the call raises the same and
    there is no invocation.  In video mode the returned path is the output
    directory joined with the stem followed by the extension of the input
    file; when the input has an extension, [splitext] splits the returned
    path into the frame-mode path and that extension (without one, the
    extension found in the returned path can come out of a tag); and the
    transcoder is started once, in the very file system the call found:
    nothing is created beforehand. *)
Theorem output_mode_branching ffmpeg video output_dir overwrite save_frames
    so d f res silent w r w' :
  let stem := (_build_filename (OsPath.basename video) so d f res).1 in
  let ext := (OsPath.splitext (OsPath.basename video)).2 in
  negb overwrite
    && stat_ok w (output_path_of video output_dir save_frames so d f res)
    = false ->
  encode_video_single ffmpeg video output_dir overwrite save_frames
    so d f res silent w = (r, w') ->
  (save_frames = true ->
     let dir := OsPath.join output_dir stem in
     (forall p, r = Ok p -> p = dir)
     /\ ((exists c, calls w' = calls w ++ [c]
                    /\ fs w ⊆ call_fs c
                    /\ call_fs c !! dir = Some Dir
                    /\ r = match raised_by c with
                           | None => Ok dir
                           | Some e => Raise e
                           end)
         \/ (exists e, r = Raise e /\ makedirs_error e = true
                       /\ calls w' = calls w /\ fs w ⊆ fs w')))
  /\ (save_frames = false ->
        let file := OsPath.join output_dir (stem +:+ ext) in
        (forall p, r = Ok p -> p = file)
        /\ (ext <> "" ->
            OsPath.splitext file = (OsPath.join output_dir stem, ext))
        /\ exists c, calls w' = calls w ++ [c] /\ call_fs c = fs w
                     /\ r = match raised_by c with
                            | None => Ok file
                            | Some e => Raise e
                            end).
Proof.
  intros stem ext Hns H.
  apply encode_video_single_outcome in H.
  assert (Hpath : output_path_of video output_dir save_frames so d f res
                  = if save_frames then OsPath.join output_dir stem
                    else OsPath.join output_dir (stem +:+ ext)).
  { unfold output_path_of, stem, ext.
    rewrite <- (build_filename_ext _ so d f res).
    destruct (_build_filename (OsPath.basename video) so d f res).
    reflexivity. }
  rewrite Hpath in *. clear Hpath.
  split; intros ->.
  - intros dir. fold dir in H, Hns.
    inversion H
      as [Ho Hs|Hn Hsf Hfile|e w'' Hn Hsf Habs He Hcw Hsub
          |c w'' Hn Hcalls Hsil Hsub Hdir Hvid Hafter Hr]; subst.
    + rewrite Hs in Hns. simpl in Hns. discriminate.
    + split; [discriminate|]. right. eexists. by repeat split.
    + split; [discriminate|]. right. eexists. by repeat split.
    + split.
      * intros p Hp. destruct (raised_by c); congruence.
      * left. exists c. auto.
  - intros file. fold file in H, Hns.
    inversion H
      as [Ho Hs|Hn Hsf Hfile|e w'' Hn Hsf Habs He Hcw Hsub
          |c w'' Hn Hcalls Hsil Hsub Hdir Hvid Hafter Hr]; subst.
    + rewrite Hs in Hns. simpl in Hns. discriminate.
    + discriminate.
    + discriminate.
    + split; [|split].
      * intros p Hp. destruct (raised_by c); congruence.
      * apply video_path_splitext.
      * exists c. auto.
Qed.

Lemma output_mode_branching_witness :
  let r := encode_video_single demo_ffmpeg "in/a.mp4" "out" false true
             (Some 1.5%float) None None None true demo_world in
  negb false
    && stat_ok demo_world
         (output_path_of "in/a.mp4" "out" true (Some 1.5%float)
            None None None) = false
  /\ exists c, calls r.2 = calls demo_world ++ [c]
               /\ fs demo_world ⊆ call_fs c
               /\ call_fs c !! "out/a_[ss1.50]" = Some Dir
               /\ r.1 = match raised_by c with
                        | None => Ok "out/a_[ss1.50]"
                        | Some e => Raise e
                        end.
Proof.
  split; [vm_compute; reflexivity|].
  destruct (proj1 (output_mode_branching demo_ffmpeg "in/a.mp4" "out" false
                     true (Some 1.5%float) None None None true demo_world
                     _ _ eq_refl (surjective_pairing _)) eq_refl)
    as [_ [Hc|(e & Hr & _)]].
  - exact Hc.
  - vm_compute in Hr. discriminate.
Defined.

(** ** The two loops of the batch driver *)

(** The first loop reads the file system and never changes the world. *)
Lemma prepare_file_world video_files align_info i acc r w' w :
  prepare_file video_files align_info i acc w = (r, w') -> w' = w.
Proof.
  unfold prepare_file, index, os_path_getatime, bind, ret, raise.
  destruct acc as [fk ds].
  destruct (video_files !! i); [|by inversion 1].
  destruct (stat_ok w _); [|by inversion 1].
  destruct (align_truthy align_info); [|by inversion 1].
  destruct (default [] align_info !! i); [|by inversion 1].
  destruct (String.eqb _ _); by inversion 1.
Qed.

Lemma for_range_prepare_world video_files align_info count start acc r w' w :
  for_range start count (prepare_file video_files align_info) acc w = (r, w')
  -> w' = w.
Proof.
  revert start acc. induction count as [|n IH]; intros start acc H.
  - by inversion H.
  - simpl in H. unfold bind at 1 in H.
    destruct (prepare_file video_files align_info start acc w)
      as [[acc'|e] w1] eqn:E; apply prepare_file_world in E; subst.
    + eauto.
    + by inversion H.
Qed.

(** The batch is its first loop, which leaves the world alone, followed
    by the second loop. *)
Lemma encode_videos_unfold ffmpeg video_files output_dir overwrite save_frames
    align_info fps resolution silent w :
  video_files <> [] ->
  encode_videos ffmpeg video_files output_dir overwrite save_frames
    align_info fps resolution silent w =
  match for_range 0 (length video_files)
          (prepare_file video_files align_info) ([], []) w with
  | (Raise e, _) => (Raise e, w)
  | (Ok (file_kwargs, durations), _) =>
      if align_truthy align_info then
        match PyFloat.py_min durations with
        | Some min_duration =>
            encode_loop ffmpeg output_dir
              (BaseKwargs overwrite save_frames (Some min_duration)
                          fps resolution silent)
              file_kwargs [] w
        | None => (Raise ValueError, w)
        end
      else
        encode_loop ffmpeg output_dir
          (BaseKwargs overwrite save_frames None fps resolution silent)
          file_kwargs [] w
  end.
Proof.
  intros Hne. unfold encode_videos.
  destruct video_files as [|v0 vs]; [done|].
  set (files := v0 :: vs).
  change (Nat.eqb (length files) 0) with false. cbv iota.
  unfold bind at 1.
  destruct (for_range 0 (length files) (prepare_file files align_info)
              ([], []) w) as [[[fk ds]|e] w1] eqn:E;
    pose proof (for_range_prepare_world _ _ _ _ _ _ _ _ E); subst w1;
    [|reflexivity].
  unfold bind at 1. simpl.
  destruct (align_truthy align_info); [|reflexivity].
  destruct (PyFloat.py_min ds); reflexivity.
Qed.

(** If the body of the first loop raises at some index of the range,
    whatever the accumulator, the loop raises; the world is untouched. *)
Lemma for_range_prepare_raises video_files align_info w j :
  (forall acc, exists e,
      prepare_file video_files align_info j acc w = (Raise e, w)) ->
  forall count start acc,
    (start <= j < start + count)%nat ->
    exists e,
      for_range start count (prepare_file video_files align_info) acc w
        = (Raise e, w).
Proof.
  intros Hbad. induction count as [|n IH]; intros start acc Hj; [lia|].
  simpl. unfold bind at 1.
  destruct (prepare_file video_files align_info start acc w)
    as [[acc'|e] w1] eqn:E;
    pose proof (prepare_file_world _ _ _ _ _ _ _ E); subst w1.
  - destruct (decide (j = start)) as [->|Hne].
    + destruct (Hbad acc) as [e He]. congruence.
    + apply IH. lia.
  - eauto.
Qed.

Lemma prepare_file_inaccessible video_files align_info w j v acc :
  video_files !! j = Some v -> stat_ok w v = false ->
  prepare_file video_files align_info j acc w = (Raise (OSError v), w).
Proof.
  intros Hv Hs. unfold prepare_file, index, os_path_getatime, bind, ret.
  destruct acc. rewrite Hv, Hs. reflexivity.
Qed.

Lemma prepare_file_mismatch video_files recs w j v r acc :
  video_files !! j = Some v -> recs !! j = Some r ->
  OsPath.basename v <> OsPath.basename (file r) ->
  exists e,
    prepare_file video_files (Some recs) j acc w = (Raise e, w).
Proof.
  intros Hv Hr Hne.
  unfold prepare_file, index, os_path_getatime, bind, ret, raise.
  destruct acc. rewrite Hv.
  destruct (stat_ok w v); [|eauto].
  destruct recs as [|r0 recs']; [done|]. simpl. rewrite Hr.
  apply String.eqb_neq in Hne. rewrite Hne. eauto.
Qed.

Lemma encode_videos_prepare_raises ffmpeg video_files output_dir overwrite
    save_frames align_info fps resolution silent w j :
  (j < length video_files)%nat ->
  (forall acc, exists e,
      prepare_file video_files align_info j acc w = (Raise e, w)) ->
  exists e,
    encode_videos ffmpeg video_files output_dir overwrite save_frames
      align_info fps resolution silent w = (Raise e, w).
Proof.
  intros Hj Hbad.
  assert (Hne : video_files <> []) by (destruct video_files; simpl in *; [lia|done]).
  rewrite encode_videos_unfold by done.
  destruct (for_range_prepare_raises _ _ _ _ Hbad (length video_files) 0%nat
              ([], [])) as [e ->]; [lia|].
  eauto.
Qed.

(** The first loop on inputs that pass all its checks. *)
Lemma for_range_prepare_ok video_files recs w sf sr :
  Forall2 (fun v r => OsPath.basename v = OsPath.basename (file r)) sf sr ->
  (forall v, v ∈ sf -> stat_ok w v = true) ->
  forall pf pr fk ds,
    video_files = pf ++ sf -> recs = pr ++ sr -> length pf = length pr ->
    for_range (length pf) (length sf)
      (prepare_file video_files (Some recs)) (fk, ds) w
    = (Ok (fk ++ ((fun vr => (vr.1, Some (trim vr.2))) <$> zip sf sr),
           ds ++ ((fun r => (orig_duration r - trim r)%float) <$> sr)), w).
Proof.
  induction 1 as [|v r sf sr Hvr Hrest IH];
    intros Hacc pf pr fk ds Hf Hr Hlen.
  - simpl. by rewrite !app_nil_r.
  - cbn [length for_range fmap list_fmap zip zip_with]. unfold bind at 1.
    assert (Hstep :
      prepare_file video_files (Some recs) (length pf) (fk, ds) w
      = (Ok (fk ++ [(v, Some (trim r))],
             ds ++ [(orig_duration r - trim r)%float]), w)).
    { unfold prepare_file, index, os_path_getatime, bind, ret.
      rewrite Hf, list_lookup_middle by done.
      rewrite Hacc by left.
      assert (Ht : align_truthy (Some recs) = true)
        by (rewrite Hr; destruct pr; reflexivity).
      rewrite Ht. simpl. rewrite Hr, list_lookup_middle by done.
      apply String.eqb_eq in Hvr. rewrite Hvr. reflexivity. }
    rewrite Hstep.
    replace (S (length pf)) with (length (pf ++ [v]))
      by (rewrite length_app; simpl; lia).
    rewrite (IH (fun x Hx => Hacc x (list_elem_of_further _ _ _ Hx))
               (pf ++ [v]) (pr ++ [r])).
    + by rewrite <- !app_assoc.
    + by rewrite <- app_assoc.
    + by rewrite <- app_assoc.
    + rewrite !length_app. simpl. lia.
Qed.

Lemma encode_loop_for_each ffmpeg output_dir bk file_kwargs outs w :
  encode_loop ffmpeg output_dir bk file_kwargs outs w =
  match for_each
          (fun vo =>
             encode_video_single ffmpeg vo.1 output_dir (bk_overwrite bk)
               (bk_save_frames bk) vo.2 (bk_duration bk) (bk_fps bk)
               (bk_resolution bk) (bk_silent bk))
          file_kwargs w with
  | (Ok ys, w') => (Ok (outs ++ ys), w')
  | (Raise e, w') => (Raise e, w')
  end.
Proof.
  revert outs w. induction file_kwargs as [|[v o] rest IH]; intros outs w.
  - simpl. unfold ret. by rewrite app_nil_r.
  - simpl. unfold bind.
    destruct (encode_video_single ffmpeg v output_dir (bk_overwrite bk)
                (bk_save_frames bk) o (bk_duration bk) (bk_fps bk)
                (bk_resolution bk) (bk_silent bk) w) as [[out|e] w1];
      [|reflexivity].
    rewrite IH.
    destruct (for_each _ rest w1) as [[ys|e] w2]; [|reflexivity].
    unfold ret. by rewrite <- app_assoc.
Qed.

Lemma for_each_fmap {A B C} (g : B -> M C) (h : A -> B) l w :
  for_each g (h <$> l) w = for_each (fun x => g (h x)) l w.
Proof.
  revert w. induction l as [|x l IH]; intros w; [reflexivity|].
  simpl. unfold bind. destruct (g (h x) w) as [[y|e] w1]; [|reflexivity].
  rewrite IH. reflexivity.
Qed.

(** The second loop run over a prefix that succeeds and then a file whose
    encode raises: the loop ends there, in the world that encode left. *)
Lemma encode_loop_stops ffmpeg output_dir bk pre video so post outs outs'
    w w1 e w2 :
  encode_loop ffmpeg output_dir bk pre outs w = (Ok outs', w1) ->
  encode_video_single ffmpeg video output_dir (bk_overwrite bk)
    (bk_save_frames bk) so (bk_duration bk) (bk_fps bk) (bk_resolution bk)
    (bk_silent bk) w1 = (Raise e, w2) ->
  encode_loop ffmpeg output_dir bk (pre ++ (video, so) :: post) outs w
    = (Raise e, w2).
Proof.
  revert outs w. induction pre as [|[v o] pre IH]; intros outs w Hpre Hfail.
  - inversion Hpre; subst. simpl. by rewrite (bind_raise _ _ _ _ _ Hfail).
  - simpl in *. unfold bind at 1 in Hpre. unfold bind at 1.
    destruct (encode_video_single ffmpeg v output_dir (bk_overwrite bk)
                (bk_save_frames bk) o (bk_duration bk) (bk_fps bk)
                (bk_resolution bk) (bk_silent bk) w) as [[out|e'] w'];
      [|discriminate].
    eapply IH; eauto.
Qed.

(** Along the second loop a failed invocation is the last one made, and
    its exception is the result of the loop. *)
Lemma encode_loop_calls ffmpeg output_dir bk file_kwargs outs w r w' :
  encode_loop ffmpeg output_dir bk file_kwargs outs w = (r, w') ->
  exists new,
    calls w' = calls w ++ new
    /\ forall c, c ∈ new -> call_result c <> Exited 0 ->
         last new = Some c
         /\ call_fs_after c = fs w'
         /\ exists e, raised_by c = Some e /\ r = Raise e.
Proof.
  revert outs w. induction file_kwargs as [|[v o] rest IH]; intros outs w H.
  - inversion H; subst. exists []. rewrite app_nil_r. split; [done|].
    intros c Hc. by apply elem_of_nil in Hc.
  - simpl in H. unfold bind at 1 in H.
    destruct (encode_video_single ffmpeg v output_dir (bk_overwrite bk)
                (bk_save_frames bk) o (bk_duration bk) (bk_fps bk)
                (bk_resolution bk) (bk_silent bk) w) as [r1 w1] eqn:E.
    apply encode_video_single_outcome in E.
    inversion E
      as [Ho Hs| |e w'' _ _ _ _ Hcw _
          |c w'' Hns Hcalls Hsil Hsub Hdir Hvid Hafter Hr]; subst.
    + apply IH in H as (new & Hnew & Hall). exists new. split; assumption.
    + inversion H; subst. exists []. rewrite app_nil_r. split; [done|].
      intros c Hc. by apply elem_of_nil in Hc.
    + inversion H; subst. exists []. rewrite app_nil_r. split; [done|].
      intros c Hc. by apply elem_of_nil in Hc.
    + destruct (raised_by c) as [e|] eqn:Hrc.
      * inversion H; subst. exists [c]. split; [assumption|].
        intros c' ->%list_elem_of_singleton _. eauto.
      * apply IH in H as (new & Hnew & Hall). exists (c :: new). split.
        { rewrite Hnew, Hcalls, <- app_assoc. reflexivity. }
        intros c' [->|Hin]%elem_of_cons Hbad.
        { by apply raised_by_none in Hrc. }
        destruct (Hall c' Hin Hbad) as (Hlast & Hrest). split; [|exact Hrest].
        destruct new; [by apply elem_of_nil in Hin|exact Hlast].
Qed.

(** ** Batch driver on the empty list *)

(** C9: on the empty input list the batch returns the empty list at once,
    with the world (file system and invocation record) untouched. *)
Theorem encode_videos_empty ffmpeg output_dir overwrite save_frames
    align_info fps resolution silent w :
  encode_videos ffmpeg [] output_dir overwrite save_frames align_info
                fps resolution silent w = (Ok [], w).
Proof. reflexivity. Qed.

(** ** Checks made before any encoding *)

(** C7: if any input file of the batch cannot be accessed, the batch
    raises, and it does so in the world it started in: before any encode,
    with no external invocation and no change to the file system. *)
Theorem inaccessible_input_aborts ffmpeg video_files output_dir overwrite
    save_frames align_info fps resolution silent w v :
  v ∈ video_files ->
  stat_ok w v = false ->
  exists e,
    encode_videos ffmpeg video_files output_dir overwrite save_frames
      align_info fps resolution silent w = (Raise e, w).
Proof.
  intros [j Hj]%list_elem_of_lookup Hs.
  apply encode_videos_prepare_raises with (j := j).
  - by apply lookup_lt_Some in Hj.
  - intros acc. exists (OSError v). by apply prepare_file_inaccessible.
Qed.

Lemma inaccessible_input_aborts_witness :
  "in/zz.mp4" ∈ ["in/a.mp4"; "in/zz.mp4"; "in/b.mp4"]
  /\ stat_ok demo_world "in/zz.mp4" = false
  /\ exists e,
       encode_videos demo_ffmpeg ["in/a.mp4"; "in/zz.mp4"; "in/b.mp4"] "out"
         false true None None None true demo_world = (Raise e, demo_world).
Proof.
  assert (Hin : "in/zz.mp4" ∈ ["in/a.mp4"; "in/zz.mp4"; "in/b.mp4"])
    by (right; left).
  assert (Hs : stat_ok demo_world "in/zz.mp4" = false)
    by (vm_compute; reflexivity).
  split; [exact Hin|]. split; [exact Hs|].
  exact (inaccessible_input_aborts demo_ffmpeg _ "out" false true None None
           None true demo_world "in/zz.mp4" Hin Hs).
Defined.

(** C5: with alignment records supplied, if the record at some index
    names a base file name other than that of the input file at the same
    index, the batch raises in the world it started in: the transcoder has
    not been invoked for any file, the earlier ones included. *)
Theorem mismatched_alignment_aborts ffmpeg video_files output_dir overwrite
    save_frames (recs : list align_record) fps resolution silent w i v r :
  video_files !! i = Some v ->
  recs !! i = Some r ->
  OsPath.basename v <> OsPath.basename (file r) ->
  exists e,
    encode_videos ffmpeg video_files output_dir overwrite save_frames
      (Some recs) fps resolution silent w = (Raise e, w).
Proof.
  intros Hv Hr Hne.
  apply encode_videos_prepare_raises with (j := i).
  - by apply lookup_lt_Some in Hv.
  - intros acc. by eapply prepare_file_mismatch.
Qed.

Lemma mismatched_alignment_aborts_witness :
  exists e,
    encode_videos demo_ffmpeg ["in/a.mp4"; "in/c.mp4"; "in/b.mp4"] "out"
      false false (Some demo_align) None None true demo_world
    = (Raise e, demo_world).
Proof.
  apply (mismatched_alignment_aborts demo_ffmpeg
           ["in/a.mp4"; "in/c.mp4"; "in/b.mp4"] "out" false false
           demo_align None None true demo_world 1%nat
           "in/c.mp4" (AlignRecord "y/b.mp4" 9 1)).
  - reflexivity.
  - reflexivity.
  - vm_compute. discriminate.
Defined.

(** ** The shared duration of a batch *)

(** C1: for a batch with alignment records, one per input and with
    matching base names, every per-file encode is given as its duration
    the minimum over all records of orig_duration minus trim, and as its
    start offset the trim of the record of that very file: the batch is the
    per-file encode run over the inputs in order with exactly these
    arguments.  The shared duration is one of the clip durations and,
    none of them being NaN, is below or equal to each.  For the records
    (10,2), (9,1), (12,5) it is 7. *)
Theorem shared_duration :
  (forall f1 f2 f3,
     PyFloat.py_min
       ((fun r => (orig_duration r - trim r)%float) <$>
          [AlignRecord f1 10 2; AlignRecord f2 9 1; AlignRecord f3 12 5])
     = Some 7%float)
  /\ (forall ffmpeg video_files output_dir overwrite save_frames recs fps
             resolution silent w,
        video_files <> [] ->
        Forall2 (fun v r => OsPath.basename v = OsPath.basename (file r))
                video_files recs ->
        Forall (fun v => stat_ok w v = true) video_files ->
        let clips := (fun r => (orig_duration r - trim r)%float) <$> recs in
        exists min_duration,
          PyFloat.py_min clips = Some min_duration
          /\ min_duration ∈ clips
          /\ ((forall x, x ∈ clips -> PrimFloat.is_nan x = false) ->
              forall x, x ∈ clips -> (min_duration <=? x)%float = true)
          /\ encode_videos ffmpeg video_files output_dir overwrite save_frames
               (Some recs) fps resolution silent w
             = for_each
                 (fun vr =>
                    encode_video_single ffmpeg vr.1 output_dir overwrite
                      save_frames (Some (trim vr.2)) (Some min_duration)
                      fps resolution silent)
                 (zip video_files recs) w).
Proof.
  split; [intros; reflexivity|].
  intros ffmpeg video_files output_dir overwrite save_frames recs fps
         resolution silent w Hne Hmatch Hacc clips.
  assert (Hrecs : exists r0 recs', recs = r0 :: recs').
  { destruct Hmatch; [done|eauto]. }
  destruct Hrecs as (r0 & recs' & Hrecs).
  exists (PyFloat.min_from (orig_duration r0 - trim r0)%float
            ((fun r => (orig_duration r - trim r)%float) <$> recs')).
  assert (Hclips : clips = (orig_duration r0 - trim r0)%float
                     :: ((fun r => (orig_duration r - trim r)%float) <$> recs'))
    by (unfold clips; rewrite Hrecs; reflexivity).
  split; [by rewrite Hclips|].
  split; [rewrite Hclips; apply min_from_elem|].
  split; [rewrite Hclips; apply min_from_lower|].
  rewrite encode_videos_unfold by done.
  pose proof (for_range_prepare_ok video_files recs w video_files recs
                Hmatch (proj1 (Forall_forall _ _) Hacc) [] [] [] []
                eq_refl eq_refl eq_refl) as Hprep.
  cbn [length app] in Hprep. rewrite Hprep. clear Hprep. fold clips.
  assert (Ht : align_truthy (Some recs) = true) by (rewrite Hrecs; reflexivity).
  rewrite Ht, Hclips. simpl PyFloat.py_min. cbv iota.
  rewrite encode_loop_for_each, for_each_fmap. simpl.
  destruct (for_each _ (zip video_files recs) w) as [[ys|e] w']; reflexivity.
Qed.

Lemma shared_duration_witness :
  let files := ["in/a.mp4"; "in/b.mp4"; "in/c.mp4"] in
  exists min_duration,
    PyFloat.py_min ((fun r => (orig_duration r - trim r)%float) <$> demo_align)
      = Some min_duration
    /\ encode_videos demo_ffmpeg files "out" false false (Some demo_align)
         None None true demo_world
       = for_each
           (fun vr =>
              encode_video_single demo_ffmpeg vr.1 "out" false false
                (Some (trim vr.2)) (Some min_duration) None None true)
           (zip files demo_align) demo_world.
Proof.
  intros files.
  destruct (proj2 shared_duration demo_ffmpeg files "out" false false
              demo_align None None true demo_world)
    as (m & Hm & _ & _ & Hrun).
  - discriminate.
  - repeat constructor.
  - repeat constructor.
  - exists m. split; [exact Hm|exact Hrun].
Defined.

(** ** Failure of the transcoder *)

(** C6: a single-file encode that reaches the external invocation returns
    its output path exactly when the transcoder exits with status zero,
    and a non-zero exit status is raised to the caller as the error that
    carries it.  In a batch that error ends the run at once: the second
    loop stops in the world the failed call left, so no later file is
    processed and nothing already written is removed, and in the record of
    invocations a failed one is always the last, its error the batch's
    result and the file system it left the final one. *)
Theorem tool_failure_propagates ffmpeg output_dir :
  (forall video overwrite save_frames so d f res silent w r w' c,
     encode_video_single ffmpeg video output_dir overwrite save_frames
       so d f res silent w = (r, w') ->
     calls w' = calls w ++ [c] ->
     (r = Ok (output_path_of video output_dir save_frames so d f res)
      <-> call_result c = Exited 0)
     /\ ((exists p, r = Ok p) <-> call_result c = Exited 0)
     /\ (forall n, call_result c = Exited n -> n <> 0 ->
           r = Raise (CalledProcessError n (call_cmd c))))
  /\ (forall bk pre video so post outs outs' w w1 e w2,
        encode_loop ffmpeg output_dir bk pre outs w = (Ok outs', w1) ->
        encode_video_single ffmpeg video output_dir (bk_overwrite bk)
          (bk_save_frames bk) so (bk_duration bk) (bk_fps bk)
          (bk_resolution bk) (bk_silent bk) w1 = (Raise e, w2) ->
        encode_loop ffmpeg output_dir bk (pre ++ (video, so) :: post) outs w
          = (Raise e, w2))
  /\ (forall video_files overwrite save_frames align_info fps resolution
             silent w r w',
        encode_videos ffmpeg video_files output_dir overwrite save_frames
          align_info fps resolution silent w = (r, w') ->
        exists new,
          calls w' = calls w ++ new
          /\ forall c, c ∈ new -> call_result c <> Exited 0 ->
               last new = Some c
               /\ call_fs_after c = fs w'
               /\ exists e, raised_by c = Some e /\ r = Raise e).
Proof.
  split; [|split].
  - intros video overwrite save_frames so d f res silent w r w' c H Hc.
    destruct (encode_video_single_invoked _ _ _ _ _ _ _ _ _ _ _ _ _ _ H Hc)
      as (_ & _ & _ & _ & _ & _ & ->).
    pose proof (raised_by_none c) as Hnone.
    unfold raised_by in *.
    destruct (call_result c) as [n|] eqn:Hres.
    + destruct (Z.eqb_spec n 0) as [->|Hn].
      * split; [split; auto|]. split; [split; eauto|].
        intros n [= <-] Hn. done.
      * split; [split; [discriminate|intros [= ->]; done]|].
        split; [split; [intros [p Hp]; discriminate|intros [= ->]; done]|].
        intros m [= <-] _. reflexivity.
    + split; [split; discriminate|].
      split; [split; [intros [p Hp]; discriminate|discriminate]|].
      discriminate.
  - intros. eapply encode_loop_stops; eauto.
  - intros video_files overwrite save_frames align_info fps resolution
           silent w r w' H.
    destruct video_files as [|v0 vs].
    { inversion H; subst. exists []. rewrite app_nil_r. split; [done|].
      intros c Hc. by apply elem_of_nil in Hc. }
    rewrite encode_videos_unfold in H by done.
    destruct (for_range 0 (length (v0 :: vs))
                (prepare_file (v0 :: vs) align_info) ([], []) w)
      as [[[fk ds]|e] w1].
    + destruct (align_truthy align_info);
        [destruct (PyFloat.py_min ds)|].
      * eapply encode_loop_calls; eauto.
      * inversion H; subst. exists []. rewrite app_nil_r. split; [done|].
        intros c Hc. by apply elem_of_nil in Hc.
      * eapply encode_loop_calls; eauto.
    + inversion H; subst. exists []. rewrite app_nil_r. split; [done|].
      intros c Hc. by apply elem_of_nil in Hc.
Qed.

Lemma tool_failure_propagates_witness :
  let cmd := "ffmpeg -hide_banner -y -i in/bad.mp4 -map 0:v out/bad.mp4" in
  let c := Call cmd true (fs demo_world) (fs demo_world) (Exited 1) in
  let w' := World (fs demo_world) [c] in
  encode_video_single demo_ffmpeg "in/bad.mp4" "out" false false
    None None None None true demo_world
    = (Raise (CalledProcessError 1 cmd), w')
  /\ calls w' = calls demo_world ++ [c]
  /\ call_result c = Exited 1
  /\ 1 <> 0
  /\ Raise (A:=string) (CalledProcessError 1 cmd)
     = Raise (CalledProcessError 1 (call_cmd c)).
Proof.
  split; [vm_compute; reflexivity|].
  split; [reflexivity|]. split; [reflexivity|]. split; [lia|].
  apply (proj1 (tool_failure_propagates demo_ffmpeg "out")
           "in/bad.mp4" false false None None None None true demo_world
           (Raise (CalledProcessError 1
              "ffmpeg -hide_banner -y -i in/bad.mp4 -map 0:v out/bad.mp4"))
           (World (fs demo_world)
              [Call "ffmpeg -hide_banner -y -i in/bad.mp4 -map 0:v out/bad.mp4"
                    true (fs demo_world) (fs demo_world) (Exited 1)])
           (Call "ffmpeg -hide_banner -y -i in/bad.mp4 -map 0:v out/bad.mp4"
                 true (fs demo_world) (fs demo_world) (Exited 1))).
  - vm_compute; reflexivity.
  - reflexivity.
  - reflexivity.
  - lia.
Defined.

(** * Further properties of the batch driver and the single-file encode *)

(** ** The first loop as a scan for the first failing file *)

Lemma prepare_file_step video_files align_info i v fk ds w :
  video_files !! i = Some v ->
  prepare_file video_files align_info i (fk, ds) w =
    if passes_checks w align_info i v
    then (Ok (fk ++ [(v, start_offset_at align_info i)],
              ds ++ clip_at align_info i), w)
    else (Raise (check_error w align_info i v), w).
Proof.
  intros Hv.
  unfold prepare_file, index, os_path_getatime, bind, ret, raise,
    passes_checks, check_error, start_offset_at, clip_at, clip_duration.
  rewrite Hv. destruct (stat_ok w v); [|reflexivity].
  destruct (align_truthy align_info); simpl.
  - destruct (default [] align_info !! i) as [r|]; [|reflexivity].
    destruct (String.eqb _ _); reflexivity.
  - by rewrite app_nil_r.
Qed.

Lemma first_loop_scan video_files align_info w sf :
  forall pf fk ds,
    video_files = pf ++ sf ->
    for_range (length pf) (length sf)
      (prepare_file video_files align_info) (fk, ds) w =
    match first_failure w align_info (length pf) sf with
    | Some e => (Raise e, w)
    | None =>
        (Ok (fk ++ kwargs_from align_info (length pf) sf,
             ds ++ durations_from align_info (length pf) sf), w)
    end.
Proof.
  induction sf as [|v sf IH]; intros pf fk ds Hf.
  - simpl. by rewrite !app_nil_r.
  - cbn [length for_range first_failure kwargs_from durations_from].
    unfold bind at 1.
    rewrite (prepare_file_step _ _ _ v) by (by rewrite Hf, list_lookup_middle).
    destruct (passes_checks w align_info (length pf) v); [|reflexivity].
    replace (S (length pf)) with (length (pf ++ [v]))
      by (rewrite length_app; simpl; lia).
    rewrite (IH (pf ++ [v])) by (by rewrite <- app_assoc).
    destruct (first_failure w align_info (length (pf ++ [v])) sf);
      [reflexivity|].
    by rewrite <- !app_assoc.
Qed.

Lemma durations_from_passed w align_info sf :
  align_truthy align_info = true ->
  forall i,
    first_failure w align_info i sf = None ->
    durations_from align_info i sf
      = clip_duration <$> take (length sf) (drop i (default [] align_info)).
Proof.
  intros Ht. induction sf as [|v sf IH]; intros i Hnone; [reflexivity|].
  cbn [first_failure durations_from length] in *.
  unfold passes_checks, clip_at in *. rewrite Ht in *.
  destruct (stat_ok w v); [|done]. simpl in Hnone.
  destruct (default [] align_info !! i) as [r|] eqn:Hr; [|done].
  destruct (String.eqb _ _); [|done].
  rewrite (drop_S _ _ _ Hr). simpl. f_equal. by apply IH.
Qed.

(** The batch: the error of the first file that fails a check, in the
    world the batch started in, or else the second loop over all files. *)
Lemma encode_videos_scan ffmpeg video_files output_dir overwrite save_frames
    align_info fps resolution silent w :
  video_files <> [] ->
  encode_videos ffmpeg video_files output_dir overwrite save_frames
    align_info fps resolution silent w =
  match first_failure w align_info 0 video_files with
  | Some e => (Raise e, w)
  | None =>
      encode_loop ffmpeg output_dir
        (BaseKwargs overwrite save_frames
           (shared_duration_of align_info (length video_files))
           fps resolution silent)
        (kwargs_from align_info 0 video_files) [] w
  end.
Proof.
  intros Hne. rewrite encode_videos_unfold by done.
  pose proof (first_loop_scan video_files align_info w video_files [] [] []
                eq_refl) as Hscan.
  cbn [length app] in Hscan. rewrite Hscan. clear Hscan.
  destruct (first_failure w align_info 0 video_files) eqn:Hff; [reflexivity|].
  unfold shared_duration_of.
  destruct (align_truthy align_info) eqn:Ht; [|reflexivity].
  rewrite (durations_from_passed w align_info video_files Ht 0 Hff).
  rewrite drop_0.
  destruct (PyFloat.py_min _) eqn:Hmin; [reflexivity|].
  exfalso.
  destruct video_files as [|v vs]; [done|].
  cbn [first_failure] in Hff. unfold passes_checks in Hff. rewrite Ht in Hff.
  destruct (stat_ok w v); [|done]. simpl in Hff.
  destruct (default [] align_info) as [|r recs]; [done|].
  discriminate Hmin.
Qed.

Lemma kwargs_from_fmap {B} (g : string -> option float -> B) align_info sf :
  forall i,
    (fun vo => g vo.1 vo.2) <$> kwargs_from align_info i sf
    = imap (fun k v => g v (start_offset_at align_info (i + k))) sf.
Proof.
  induction sf as [|v sf IH]; intros i; [reflexivity|].
  cbn [kwargs_from fmap list_fmap imap]. rewrite Nat.add_0_r. f_equal.
  change (list_fmap _ _ ?f ?l) with (f <$> l). rewrite IH.
  apply imap_ext. intros k u _. simpl. by rewrite Nat.add_succ_r.
Qed.

(** ** What a successful batch returns *)

Lemma encode_loop_ok_outputs ffmpeg output_dir bk file_kwargs :
  forall outs w outs' w',
    encode_loop ffmpeg output_dir bk file_kwargs outs w = (Ok outs', w') ->
    outs' = outs ++
      ((fun vo => output_path_of vo.1 output_dir (bk_save_frames bk) vo.2
                    (bk_duration bk) (bk_fps bk) (bk_resolution bk))
         <$> file_kwargs).
Proof.
  induction file_kwargs as [|[v o] rest IH]; intros outs w outs' w' H.
  - inversion H; subst. by rewrite app_nil_r.
  - simpl in H. unfold bind at 1 in H.
    destruct (encode_video_single ffmpeg v output_dir (bk_overwrite bk)
                (bk_save_frames bk) o (bk_duration bk) (bk_fps bk)
                (bk_resolution bk) (bk_silent bk) w) as [[out|e] w1] eqn:E;
      [|discriminate].
    apply encode_video_single_ok in E as [-> _].
    apply IH in H. rewrite H, <- app_assoc. reflexivity.
Qed.

(** X1: a batch that succeeds returns one path per input file, in input
    order: the path at index i is the output path of file i built with
    that file's own start offset (the trim of record i, or none without
    records) and the one duration shared by the batch. *)
Theorem batch_outputs ffmpeg video_files output_dir overwrite save_frames
    align_info fps resolution silent w outs :
  (encode_videos ffmpeg video_files output_dir overwrite save_frames
     align_info fps resolution silent w).1 = Ok outs ->
  outs = imap (fun i v =>
                 output_path_of v output_dir save_frames
                   (start_offset_at align_info i)
                   (shared_duration_of align_info (length video_files))
                   fps resolution)
              video_files.
Proof.
  destruct video_files as [|v0 vs]; [by intros [= <-]|].
  rewrite encode_videos_scan by done.
  destruct (first_failure w align_info 0 (v0 :: vs)); [discriminate|].
  destruct (encode_loop _ _ _ _ _ _) as [r w'] eqn:E. simpl. intros ->.
  apply encode_loop_ok_outputs in E. rewrite E. cbn [app].
  cbn [bk_save_frames bk_duration bk_fps bk_resolution].
  apply (kwargs_from_fmap
           (fun v o => output_path_of v output_dir save_frames o
                         (shared_duration_of align_info (length (v0 :: vs)))
                         fps resolution) align_info (v0 :: vs) 0).
Qed.

Lemma batch_outputs_witness :
  (encode_videos demo_ffmpeg ["in/a.mp4"; "in/b.mp4"; "in/c.mp4"] "out"
     false false (Some demo_align) None None true demo_world).1
    = Ok ["out/a_[ss2.00_t7.00].mp4"; "out/b_[ss1.00_t7.00].mp4";
          "out/c_[ss5.00_t7.00].mp4"]
  /\ ["out/a_[ss2.00_t7.00].mp4"; "out/b_[ss1.00_t7.00].mp4";
      "out/c_[ss5.00_t7.00].mp4"]
     = imap (fun i v =>
               output_path_of v "out" false
                 (start_offset_at (Some demo_align) i)
                 (shared_duration_of (Some demo_align) 3) None None)
            ["in/a.mp4"; "in/b.mp4"; "in/c.mp4"].
Proof.
  assert (Hrun :
    (encode_videos demo_ffmpeg ["in/a.mp4"; "in/b.mp4"; "in/c.mp4"] "out"
       false false (Some demo_align) None None true demo_world).1
    = Ok ["out/a_[ss2.00_t7.00].mp4"; "out/b_[ss1.00_t7.00].mp4";
          "out/c_[ss5.00_t7.00].mp4"]) by (vm_compute; reflexivity).
  split; [exact Hrun|].
  exact (batch_outputs demo_ffmpeg _ "out" false false (Some demo_align)
           None None true demo_world _ Hrun).
Defined.

(** ** Batches without alignment records *)

Lemma first_failure_none w align_info sf :
  forall i,
    (forall k v, sf !! k = Some v ->
                 passes_checks w align_info (i + k) v = true) ->
    first_failure w align_info i sf = None.
Proof.
  induction sf as [|v sf IH]; intros i Hpass; [reflexivity|].
  cbn [first_failure].
  rewrite <- (Nat.add_0_r i) at 1. rewrite (Hpass 0%nat v eq_refl).
  apply IH. intros k u Hk. rewrite Nat.add_succ_comm. by apply (Hpass (S k)).
Qed.

Lemma for_each_ok_eta {A B} (f : A -> M B) l w :
  match for_each f l w with
  | (Ok ys, w') => (Ok ([] ++ ys), w')
  | (Raise e, w') => (Raise e, w')
  end = for_each f l w.
Proof. destruct (for_each f l w) as [[ys|e] w']; reflexivity. Qed.

(** X2: without alignment records, an absent or an empty list alike, and
    with every input accessible, the batch is the single-file encode run
    on the inputs in order with no start offset and no duration; only fps
    and resolution are passed on. *)
Theorem no_alignment_no_trim ffmpeg video_files output_dir overwrite
    save_frames align_info fps resolution silent w :
  align_truthy align_info = false ->
  Forall (fun v => stat_ok w v = true) video_files ->
  encode_videos ffmpeg video_files output_dir overwrite save_frames
    align_info fps resolution silent w
  = for_each
      (fun v =>
         encode_video_single ffmpeg v output_dir overwrite save_frames
           None None fps resolution silent)
      video_files w.
Proof.
  intros Ht Hacc.
  destruct video_files as [|v0 vs]; [reflexivity|].
  rewrite encode_videos_scan by done.
  rewrite first_failure_none.
  - unfold shared_duration_of. rewrite Ht.
    rewrite encode_loop_for_each.
    cbn [bk_overwrite bk_save_frames bk_duration bk_fps bk_resolution
         bk_silent].
    assert (Hk : forall sf i,
               kwargs_from align_info i sf = (fun v => (v, None)) <$> sf).
    { induction sf as [|u sf IH]; intros i; [reflexivity|].
      cbn [kwargs_from fmap list_fmap]. unfold start_offset_at at 1.
      rewrite Ht. f_equal. apply IH. }
    rewrite Hk, for_each_fmap. cbn [fst snd]. apply for_each_ok_eta.
  - intros k v Hk. unfold passes_checks. rewrite Ht, andb_true_r.
    apply (proj1 (Forall_lookup _ _) Hacc k v Hk).
Qed.

Lemma no_alignment_no_trim_witness :
  encode_videos demo_ffmpeg ["in/a.mp4"; "in/b.mp4"] "out" false true
    (Some []) (Some 30%float) None true demo_world
  = for_each
      (fun v =>
         encode_video_single demo_ffmpeg v "out" false true
           None None (Some 30%float) None true)
      ["in/a.mp4"; "in/b.mp4"] demo_world.
Proof.
  apply (no_alignment_no_trim demo_ffmpeg ["in/a.mp4"; "in/b.mp4"] "out"
           false true (Some []) (Some 30%float) None true demo_world).
  - reflexivity.
  - repeat constructor.
Defined.

(** ** Alignment lists of the wrong length *)

Lemma first_failure_ext w ai1 ai2 sf :
  forall i,
    (forall k v, sf !! k = Some v ->
       passes_checks w ai1 (i + k) v = passes_checks w ai2 (i + k) v
       /\ check_error w ai1 (i + k) v = check_error w ai2 (i + k) v) ->
    first_failure w ai1 i sf = first_failure w ai2 i sf.
Proof.
  induction sf as [|v sf IH]; intros i Hext; [reflexivity|].
  cbn [first_failure].
  destruct (Hext 0%nat v eq_refl) as [Hp He]. rewrite Nat.add_0_r in Hp, He.
  rewrite Hp, He. destruct (passes_checks w ai2 i v); [|reflexivity].
  apply IH. intros k u Hk. rewrite Nat.add_succ_comm. exact (Hext (S k) u Hk).
Qed.

Lemma kwargs_from_ext ai1 ai2 sf :
  forall i,
    (forall k v, sf !! k = Some v ->
       start_offset_at ai1 (i + k) = start_offset_at ai2 (i + k)) ->
    kwargs_from ai1 i sf = kwargs_from ai2 i sf.
Proof.
  induction sf as [|v sf IH]; intros i Hext; [reflexivity|].
  cbn [kwargs_from].
  pose proof (Hext 0%nat v eq_refl) as H0. rewrite Nat.add_0_r in H0.
  rewrite H0. f_equal.
  apply IH. intros k u Hk. rewrite Nat.add_succ_comm. exact (Hext (S k) u Hk).
Qed.

(** X4: alignment records beyond the number of input files are never
    looked at: the batch behaves as with the list cut to that number.  In
    particular they do not enter the shared duration. *)
Theorem surplus_records_ignored ffmpeg video_files output_dir overwrite
    save_frames (recs : list align_record) fps resolution silent w :
  encode_videos ffmpeg video_files output_dir overwrite save_frames
    (Some recs) fps resolution silent w
  = encode_videos ffmpeg video_files output_dir overwrite save_frames
      (Some (take (length video_files) recs)) fps resolution silent w.
Proof.
  destruct video_files as [|v0 vs]; [reflexivity|].
  set (files := v0 :: vs). set (n := length files).
  assert (Hn : (0 < n)%nat) by (unfold n, files; simpl; lia).
  rewrite !encode_videos_scan by done. fold n.
  assert (Ht : align_truthy (Some (take n recs)) = align_truthy (Some recs)).
  { destruct recs; [by rewrite take_nil|]. destruct n; [lia|reflexivity]. }
  assert (Hlook : forall k v, files !! k = Some v ->
                    take n recs !! k = recs !! k).
  { intros k v Hk. apply lookup_take_lt. apply lookup_lt_Some in Hk.
    exact Hk. }
  rewrite (first_failure_ext w (Some recs) (Some (take n recs))).
  2:{ intros k v Hk. unfold passes_checks, check_error. rewrite Ht.
      cbn [default from_option id]. simpl. by rewrite (Hlook k v Hk). }
  rewrite (kwargs_from_ext (Some recs) (Some (take n recs))).
  2:{ intros k v Hk. unfold start_offset_at. rewrite Ht.
      cbn [default from_option id]. simpl. by rewrite (Hlook k v Hk). }
  unfold shared_duration_of. rewrite Ht. cbn [default from_option id].
  rewrite take_take, Nat.min_id. reflexivity.
Qed.

Lemma first_failure_at w align_info sf :
  forall i j v,
    sf !! j = Some v ->
    (forall k u, (k < j)%nat -> sf !! k = Some u ->
                 passes_checks w align_info (i + k) u = true) ->
    passes_checks w align_info (i + j) v = false ->
    first_failure w align_info i sf
      = Some (check_error w align_info (i + j) v).
Proof.
  induction sf as [|u0 sf IH]; intros i j v Hj Hbefore Hfail; [done|].
  cbn [first_failure]. destruct j as [|j].
  - injection Hj as ->. rewrite Nat.add_0_r in *. by rewrite Hfail.
  - pose proof (Hbefore 0%nat u0 ltac:(lia) eq_refl) as H0.
    rewrite Nat.add_0_r in H0. rewrite H0.
    rewrite <- Nat.add_succ_comm. apply IH; [exact Hj| |].
    + intros k u Hk Hu. rewrite Nat.add_succ_comm.
      apply (Hbefore (S k) u); [lia|exact Hu].
    + by rewrite Nat.add_succ_comm.
Qed.

Lemma first_failure_some w align_info sf :
  forall i e,
    first_failure w align_info i sf = Some e ->
    exists j v, sf !! j = Some v
                /\ passes_checks w align_info (i + j) v = false
                /\ e = check_error w align_info (i + j) v.
Proof.
  induction sf as [|u0 sf IH]; intros i e H; [done|].
  cbn [first_failure] in H.
  destruct (passes_checks w align_info i u0) eqn:Hp.
  - apply IH in H as (j & v & Hj & Hf & ->).
    exists (S j), v. rewrite <- Nat.add_succ_comm. auto.
  - injection H as <-. exists 0%nat, u0. rewrite Nat.add_0_r. auto.
Qed.

(** X3: the lowest index at which a check fails decides the outcome of
    the batch.  If every earlier file is accessible and matches its
    record, the batch raises, in the world it started in, OSError for an
    inaccessible file, otherwise IndexError when the alignment list has no
    record at that index, otherwise the AssertionError of a base-name
    mismatch. *)
Theorem lowest_failing_index_decides ffmpeg video_files output_dir overwrite
    save_frames align_info fps resolution silent w j v :
  video_files !! j = Some v ->
  (forall k u, (k < j)%nat -> video_files !! k = Some u ->
               passes_checks w align_info k u = true) ->
  let batch :=
    encode_videos ffmpeg video_files output_dir overwrite save_frames
      align_info fps resolution silent w in
  (stat_ok w v = false -> batch = (Raise (OSError v), w))
  /\ (stat_ok w v = true -> align_truthy align_info = true ->
      default [] align_info !! j = None ->
      batch = (Raise IndexError, w))
  /\ (forall r,
        stat_ok w v = true -> align_truthy align_info = true ->
        default [] align_info !! j = Some r ->
        OsPath.basename v <> OsPath.basename (file r) ->
        batch = (Raise (AssertionError
                   "the files and align info seem to be out of order"), w)).
Proof.
  intros Hj Hbefore batch.
  assert (Hne : video_files <> []) by (by destruct video_files).
  assert (Hfail : passes_checks w align_info j v = false ->
                  batch = (Raise (check_error w align_info j v), w)).
  { intros Hf. unfold batch. rewrite encode_videos_scan by done.
    by rewrite (first_failure_at w align_info video_files 0 j v Hj Hbefore Hf). }
  split; [|split].
  - intros Hs. rewrite Hfail; unfold passes_checks, check_error;
      by rewrite Hs.
  - intros Hs Ht Hr. rewrite Hfail; unfold passes_checks, check_error;
      by rewrite Hs, ?Ht, Hr.
  - intros r Hs Ht Hr Hneq. apply String.eqb_neq in Hneq.
    rewrite Hfail; unfold passes_checks, check_error;
      by rewrite Hs, ?Ht, Hr, ?Hneq.
Qed.

Lemma lowest_failing_index_decides_witness :
  encode_videos demo_ffmpeg ["in/a.mp4"; "in/zz.mp4"; "in/c.mp4"] "out"
    false false
    (Some [AlignRecord "a.mp4" 10 2; AlignRecord "other.mp4" 9 1])
    None None true demo_world
  = (Raise (OSError "in/zz.mp4"), demo_world).
Proof.
  apply (lowest_failing_index_decides demo_ffmpeg
           ["in/a.mp4"; "in/zz.mp4"; "in/c.mp4"] "out" false false
           (Some [AlignRecord "a.mp4" 10 2; AlignRecord "other.mp4" 9 1])
           None None true demo_world 1%nat "in/zz.mp4").
  - reflexivity.
  - intros [|k] u Hk Hu; [|lia]. injection Hu as <-. vm_compute. reflexivity.
  - vm_compute. reflexivity.
Defined.

(** X5: an alignment list that is not empty but shorter than the list of
    input files can never be used: the batch raises before any encode,
    leaving the world as it found it. *)
Theorem short_alignment_list_aborts ffmpeg video_files output_dir overwrite
    save_frames (recs : list align_record) fps resolution silent w :
  recs <> [] ->
  (length recs < length video_files)%nat ->
  exists e,
    encode_videos ffmpeg video_files output_dir overwrite save_frames
      (Some recs) fps resolution silent w = (Raise e, w).
Proof.
  intros Hne Hlen.
  destruct (lookup_lt_is_Some_2 video_files (length recs) Hlen) as [v Hv].
  apply encode_videos_prepare_raises with (j := length recs).
  - exact Hlen.
  - intros [fk ds]. rewrite (prepare_file_step _ _ _ v) by done.
    assert (Hp : passes_checks w (Some recs) (length recs) v = false).
    { unfold passes_checks.
      assert (Ht : align_truthy (Some recs) = true) by (by destruct recs).
      rewrite Ht. cbn [default from_option id].
      rewrite (lookup_ge_None_2 recs (length recs)) by lia.
      apply andb_false_r. }
    rewrite Hp. eauto.
Qed.

Lemma short_alignment_list_aborts_witness :
  exists e,
    encode_videos demo_ffmpeg ["in/a.mp4"; "in/b.mp4"] "out" false false
      (Some [AlignRecord "a.mp4" 10 2]) None None true demo_world
    = (Raise e, demo_world).
Proof.
  apply (short_alignment_list_aborts demo_ffmpeg ["in/a.mp4"; "in/b.mp4"]
           "out" false false [AlignRecord "a.mp4" 10 2] None None true
           demo_world).
  - discriminate.
  - simpl. lia.
Defined.

(** ** Invocations and exceptions of a batch *)

Lemma raised_by_some c e : raised_by c = Some e -> call_result c <> Exited 0.
Proof. intros H Hz. apply raised_by_none in Hz. congruence. Qed.

Lemma encode_loop_summary ffmpeg output_dir bk file_kwargs :
  forall outs w r w',
    encode_loop ffmpeg output_dir bk file_kwargs outs w = (r, w') ->
    exists new,
      calls w' = calls w ++ new
      /\ (length new <= length file_kwargs)%nat
      /\ forall e, r = Raise e ->
           (bk_save_frames bk = true /\ makedirs_error e = true)
           \/ (exists c, last (calls w') = Some c /\ raised_by c = Some e).
Proof.
  induction file_kwargs as [|[v o] rest IH]; intros outs w r w' H.
  - inversion H; subst. exists []. rewrite app_nil_r.
    split; [done|]. split; [done|]. discriminate.
  - simpl in H. unfold bind at 1 in H.
    destruct (encode_video_single ffmpeg v output_dir (bk_overwrite bk)
                (bk_save_frames bk) o (bk_duration bk) (bk_fps bk)
                (bk_resolution bk) (bk_silent bk) w) as [r1 w1] eqn:E.
    apply encode_video_single_outcome in E.
    inversion E
      as [Ho Hs|Hn Hsf Hfile|e1 w'' Hn Hsf Habs He Hcw Hsub
          |c w'' Hn Hcalls Hsil Hsub Hdir Hvid Hafter Hr]; subst.
    + apply IH in H as (new & Hnew & Hlen & Herr). exists new.
      split; [exact Hnew|]. split; [simpl; lia|exact Herr].
    + inversion H; subst. exists []. rewrite app_nil_r.
      split; [done|]. split; [simpl; lia|].
      intros e [= <-]. left. eauto.
    + inversion H; subst. exists []. rewrite app_nil_r.
      split; [done|]. split; [simpl; lia|].
      intros e [= <-]. left. eauto.
    + destruct (raised_by c) as [e0|] eqn:Hrc.
      * inversion H; subst. exists [c]. split; [assumption|].
        split; [simpl; lia|].
        intros e [= <-]. right. exists c. split; [|exact Hrc].
        rewrite Hcalls. apply last_snoc.
      * apply IH in H as (new & Hnew & Hlen & Herr). exists (c :: new).
        split; [by rewrite Hnew, Hcalls, <- app_assoc|].
        split; [simpl; lia|exact Herr].
Qed.

(** X7: the exceptions of a batch.  A batch that raises does so in one of
    five ways: OSError for an input that cannot be accessed, IndexError
    for an alignment list shorter than the inputs, AssertionError for a
    base-name mismatch (these three in the world the batch started in),
    in frame mode an exception of [os.makedirs] (FileExistsError,
    NotADirectoryError, PermissionError, FileNotFoundError or another
    OSError), or the error of its last external invocation, which did not
    exit with status zero.  It never raises the ValueError of [min] on an
    empty list. *)
Theorem batch_exceptions ffmpeg video_files output_dir overwrite save_frames
    align_info fps resolution silent w e w' :
  encode_videos ffmpeg video_files output_dir overwrite save_frames
    align_info fps resolution silent w = (Raise e, w') ->
  e <> ValueError
  /\ ((w' = w /\ exists v, v ∈ video_files /\ stat_ok w v = false
                           /\ e = OSError v)
      \/ (w' = w /\ align_truthy align_info = true
          /\ (length (default [] align_info) < length video_files)%nat
          /\ e = IndexError)
      \/ (w' = w /\ exists i v r,
            video_files !! i = Some v /\ default [] align_info !! i = Some r
            /\ OsPath.basename v <> OsPath.basename (file r)
            /\ e = AssertionError
                     "the files and align info seem to be out of order")
      \/ (save_frames = true /\ makedirs_error e = true)
      \/ (exists c, last (calls w') = Some c /\ call_result c <> Exited 0
                    /\ raised_by c = Some e)).
Proof.
  intros H.
  assert (Hcases :
    (w' = w /\ exists v, v ∈ video_files /\ stat_ok w v = false
                         /\ e = OSError v)
    \/ (w' = w /\ align_truthy align_info = true
        /\ (length (default [] align_info) < length video_files)%nat
        /\ e = IndexError)
    \/ (w' = w /\ exists i v r,
          video_files !! i = Some v /\ default [] align_info !! i = Some r
          /\ OsPath.basename v <> OsPath.basename (file r)
          /\ e = AssertionError
                   "the files and align info seem to be out of order")
    \/ (save_frames = true /\ makedirs_error e = true)
    \/ (exists c, last (calls w') = Some c /\ call_result c <> Exited 0
                  /\ raised_by c = Some e)).
  { destruct video_files as [|v0 vs]; [discriminate|].
    rewrite encode_videos_scan in H by done.
    destruct (first_failure w align_info 0 (v0 :: vs)) as [e0|] eqn:Hff.
    - injection H as <- <-.
      apply first_failure_some in Hff as (j & v & Hj & Hp & ->).
      cbn [Nat.add] in *. unfold passes_checks, check_error in *.
      destruct (stat_ok w v) eqn:Hs.
      + simpl in Hp. destruct (align_truthy align_info) eqn:Ht; [|done].
        destruct (default [] align_info !! j) as [r|] eqn:Hr.
        * right; right; left. split; [done|]. exists j, v, r.
          apply String.eqb_neq in Hp. auto.
        * right; left. split; [done|]. split; [done|]. split; [|done].
          apply lookup_ge_None in Hr. apply lookup_lt_Some in Hj. lia.
      + left. split; [done|]. exists v. split; [|done].
        by eapply list_elem_of_lookup_2.
    - apply encode_loop_summary in H as (new & Hnew & Hlen & Herr).
      destruct (Herr e eq_refl) as [[Hsf Hp]|(c & Hlast & Hrc)].
      + right; right; right; left. auto.
      + right; right; right; right. exists c.
        split; [exact Hlast|]. split; [|exact Hrc].
        by eapply raised_by_some. }
  split; [|exact Hcases].
  intros ->.
  destruct Hcases as [(_ & v & _ & _ & ?)|[(_ & _ & _ & ?)|
    [(_ & i & v & r & _ & _ & _ & ?)|[(_ & ?)|(c & _ & _ & Hrc)]]]];
    try discriminate.
  unfold raised_by in Hrc.
  destruct (call_result c) as [n|]; [destruct (n =? 0)|]; discriminate.
Qed.

Lemma batch_exceptions_witness :
  exists e w',
    encode_videos demo_ffmpeg ["in/a.mp4"; "in/bad.mp4"; "in/c.mp4"] "out"
      false false None None None true demo_world = (Raise e, w')
    /\ e <> ValueError.
Proof.
  exists (CalledProcessError 1
            "ffmpeg -hide_banner -y -i in/bad.mp4 -map 0:v out/bad.mp4"),
         (encode_videos demo_ffmpeg ["in/a.mp4"; "in/bad.mp4"; "in/c.mp4"]
            "out" false false None None None true demo_world).2.
  assert (Hrun :
    encode_videos demo_ffmpeg ["in/a.mp4"; "in/bad.mp4"; "in/c.mp4"] "out"
      false false None None None true demo_world
    = (Raise (CalledProcessError 1
                "ffmpeg -hide_banner -y -i in/bad.mp4 -map 0:v out/bad.mp4"),
       (encode_videos demo_ffmpeg ["in/a.mp4"; "in/bad.mp4"; "in/c.mp4"]
          "out" false false None None None true demo_world).2))
    by (vm_compute; reflexivity).
  split; [exact Hrun|].
  exact (proj1 (batch_exceptions demo_ffmpeg _ "out" false false None None
                  None true demo_world _ _ Hrun)).
Defined.

(** ** A call that is not skipped *)

(** A call that is not skipped makes the frame directory, in frame mode,
    and then is [check_call] of the command line. *)
Lemma encode_video_single_run ffmpeg video output_dir overwrite save_frames
    so d f res silent w :
  let path := output_path_of video output_dir save_frames so d f res in
  negb overwrite && stat_ok w path = false ->
  encode_video_single ffmpeg video output_dir overwrite save_frames
    so d f res silent w
  = ((if save_frames then os_makedirs path else ret tt) ;;
     check_call ffmpeg
       (encode_cmd_str video output_dir save_frames so d f res) silent ;;
     ret path) w.
Proof.
  intros path Hns.
  unfold encode_video_single, encode_cmd_str, output_file_of. fold path.
  unfold bind at 1.
  assert (Hskip : (if negb overwrite then os_path_exists path else ret false) w
                  = (Ok false, w)).
  { destruct overwrite; [reflexivity|].
    change (stat_ok w path = false) in Hns.
    cbn [negb]. unfold os_path_exists. by rewrite Hns. }
  rewrite Hskip. cbv iota.
  destruct save_frames.
  - unfold bind, ret.
    destruct (os_makedirs path w) as [[[]|e] w1]; [|reflexivity].
    cbn [fst snd]. by destruct silent.
  - unfold bind, ret. cbn [fst snd]. by destruct silent.
Qed.

(** Making the frame directory, or not having to, removes nothing and
    invokes nothing. *)
Lemma frame_dir_step (save_frames : bool) path w rm w1 :
  (if save_frames then os_makedirs path else ret tt) w = (rm, w1) ->
  fs w ⊆ fs w1 /\ calls w1 = calls w.
Proof.
  destruct save_frames; [apply os_makedirs_mono|]. by intros [= <- <-].
Qed.

Lemma encode_video_single_skip ffmpeg video output_dir save_frames
    so d f res silent w :
  stat_ok w (output_path_of video output_dir save_frames so d f res) = true ->
  encode_video_single ffmpeg video output_dir false save_frames
    so d f res silent w
  = (Ok (output_path_of video output_dir save_frames so d f res), w).
Proof.
  intros Hex. unfold encode_video_single, bind, os_path_exists, ret.
  simpl. by rewrite Hex.
Qed.

(** ** Running a batch whose outputs are all there *)

Lemma encode_loop_all_skipped ffmpeg output_dir bk w file_kwargs :
  bk_overwrite bk = false ->
  Forall (fun vo => stat_ok w (output_path_of vo.1 output_dir
                                 (bk_save_frames bk) vo.2 (bk_duration bk)
                                 (bk_fps bk) (bk_resolution bk)) = true)
         file_kwargs ->
  forall outs,
    encode_loop ffmpeg output_dir bk file_kwargs outs w
    = (Ok (outs ++
             ((fun vo => output_path_of vo.1 output_dir (bk_save_frames bk)
                           vo.2 (bk_duration bk) (bk_fps bk)
                           (bk_resolution bk)) <$> file_kwargs)), w).
Proof.
  intros Ho. induction 1 as [|[v o] rest Hx Hrest IH]; intros outs.
  - simpl. by rewrite app_nil_r.
  - cbn [encode_loop]. unfold bind at 1. rewrite Ho.
    rewrite (encode_video_single_skip _ _ _ _ _ _ _ _ _ _ Hx).
    rewrite IH, <- app_assoc. reflexivity.
Qed.

Lemma kwargs_from_lookup align_info sf :
  forall i k vo,
    kwargs_from align_info i sf !! k = Some vo ->
    sf !! k = Some vo.1 /\ vo.2 = start_offset_at align_info (i + k).
Proof.
  induction sf as [|v sf IH]; intros i k vo H; [done|].
  destruct k as [|k].
  - injection H as <-. by rewrite Nat.add_0_r.
  - apply IH in H as [H1 H2]. by rewrite <- Nat.add_succ_comm.
Qed.

(** X8: running a batch again.  With overwrite off, when every input
    passes the checks of the first loop and every output path already
    exists, the batch returns the list of output paths and leaves the
    world as it is: no external invocation, nothing created. *)
Theorem rerun_is_noop ffmpeg video_files output_dir save_frames align_info
    fps resolution silent w :
  (forall k v, video_files !! k = Some v ->
               passes_checks w align_info k v = true) ->
  (forall k v, video_files !! k = Some v ->
     stat_ok w (output_path_of v output_dir save_frames
                  (start_offset_at align_info k)
                  (shared_duration_of align_info (length video_files))
                  fps resolution) = true) ->
  encode_videos ffmpeg video_files output_dir false save_frames align_info
    fps resolution silent w
  = (Ok (imap (fun i v =>
                 output_path_of v output_dir save_frames
                   (start_offset_at align_info i)
                   (shared_duration_of align_info (length video_files))
                   fps resolution)
              video_files), w).
Proof.
  intros Hpass Hex.
  destruct video_files as [|v0 vs]; [reflexivity|].
  set (files := v0 :: vs) in *.
  rewrite encode_videos_scan by done.
  rewrite (first_failure_none w align_info files 0 Hpass).
  rewrite encode_loop_all_skipped; [|reflexivity|].
  - cbn [app bk_save_frames bk_duration bk_fps bk_resolution]. f_equal.
    f_equal.
    apply (kwargs_from_fmap
             (fun v o => output_path_of v output_dir save_frames o
                           (shared_duration_of align_info (length files))
                           fps resolution) align_info files 0).
  - apply Forall_lookup. intros k vo Hk.
    apply kwargs_from_lookup in Hk as [Hv ->].
    cbn [bk_save_frames bk_duration bk_fps bk_resolution Nat.add].
    by apply Hex.
Qed.

Lemma rerun_is_noop_witness :
  let files := ["in/a.mp4"; "in/b.mp4"] in
  let w := (encode_videos demo_ffmpeg files "out" false false None
              (Some 30%float) None true demo_world).2 in
  encode_videos demo_ffmpeg files "out" false false None
    (Some 30%float) None true w
  = (Ok (imap (fun i v =>
                 output_path_of v "out" false (start_offset_at None i)
                   (shared_duration_of None (length files))
                   (Some 30%float) None)
              files), w).
Proof.
  intros files w.
  apply (rerun_is_noop demo_ffmpeg files "out" false None (Some 30%float)
           None true w).
  - intros [|[|k]] v Hk; try discriminate; injection Hk as <-;
      vm_compute; reflexivity.
  - intros [|[|k]] v Hk; try discriminate; injection Hk as <-;
      vm_compute; reflexivity.
Defined.

(** ** A regular file where the frame directory should go *)

(** X9: frame mode with a regular file sitting at the output path.  With
    overwrite off the call takes the output as done and returns the path,
    though it is no directory; with overwrite on it raises
    FileExistsError.  Either way the transcoder is not invoked and the
    world is left as it is. *)
Theorem frame_path_taken_by_file ffmpeg video output_dir so d f res silent w :
  let path := output_path_of video output_dir true so d f res in
  fs w !! path = Some File ->
  encode_video_single ffmpeg video output_dir false true so d f res silent w
    = (Ok path, w)
  /\ encode_video_single ffmpeg video output_dir true true so d f res
       silent w
     = (Raise (FileExistsError path), w).
Proof.
  intros path Hfile. split.
  - apply encode_video_single_skip. fold path. unfold stat_ok.
    rewrite Hfile. reflexivity.
  - unfold encode_video_single. fold path. clearbody path.
    unfold bind, ret. cbn [negb]. by rewrite (os_makedirs_file _ _ Hfile).
Qed.

Lemma frame_path_taken_by_file_witness :
  let w := World {["out/a" := File]} [] in
  fs w !! "out/a" = Some File
  /\ encode_video_single demo_ffmpeg "in/a.mp4" "out" true true
       None None None None true w
     = (Raise (FileExistsError "out/a"), w).
Proof.
  intros w.
  assert (Hfile : fs w !! output_path_of "in/a.mp4" "out" true None None
                             None None = Some File)
    by (vm_compute; reflexivity).
  split; [exact Hfile|].
  exact (proj2 (frame_path_taken_by_file demo_ffmpeg "in/a.mp4" "out"
                  None None None None true w Hfile)).
Defined.

(** ** What the batch leaves of the file system *)

Lemma check_call_fs_mono ffmpeg cmd_str silent (path : string) w r w' :
  (forall cmd s w0, fs w0 ⊆ (ffmpeg cmd s w0).2) ->
  (check_call ffmpeg cmd_str silent ;; ret path) w = (r, w') ->
  fs w ⊆ fs w'.
Proof.
  intros Hmono. unfold bind, check_call, ret.
  pose proof (Hmono cmd_str silent w) as Hsub.
  destruct (ffmpeg cmd_str silent w) as [pr fs'].
  destruct pr as [n|]; [destruct (n =? 0)|]; intros [= <- <-]; exact Hsub.
Qed.

Lemma encode_video_single_fs_mono ffmpeg video output_dir overwrite
    save_frames so d f res silent w r w' :
  (forall cmd s w0, fs w0 ⊆ (ffmpeg cmd s w0).2) ->
  encode_video_single ffmpeg video output_dir overwrite save_frames
    so d f res silent w = (r, w') ->
  fs w ⊆ fs w'.
Proof.
  intros Hmono H.
  set (path := output_path_of video output_dir save_frames so d f res).
  destruct (negb overwrite && stat_ok w path) eqn:Hns.
  - apply andb_prop in Hns as [Ho Hs]. apply negb_true_iff in Ho. subst.
    rewrite encode_video_single_skip in H by done. by injection H as _ <-.
  - rewrite encode_video_single_run in H by done. fold path in H.
    unfold bind at 1 in H.
    destruct ((if save_frames then os_makedirs path else ret tt) w)
      as [[[]|e] w1] eqn:Hmk; apply frame_dir_step in Hmk as [Hsub _].
    + apply (check_call_fs_mono _ _ _ _ _ _ _ Hmono) in H. by etrans.
    + by injection H as _ <-.
Qed.

Lemma encode_loop_fs_mono ffmpeg output_dir bk file_kwargs :
  (forall cmd s w0, fs w0 ⊆ (ffmpeg cmd s w0).2) ->
  forall outs w r w',
    encode_loop ffmpeg output_dir bk file_kwargs outs w = (r, w') ->
    fs w ⊆ fs w'.
Proof.
  intros Hmono.
  induction file_kwargs as [|[v o] rest IH]; intros outs w r w' H.
  - by injection H as _ <-.
  - simpl in H. unfold bind at 1 in H.
    destruct (encode_video_single ffmpeg v output_dir (bk_overwrite bk)
                (bk_save_frames bk) o (bk_duration bk) (bk_fps bk)
                (bk_resolution bk) (bk_silent bk) w) as [[out|e] w1] eqn:E;
      apply (encode_video_single_fs_mono _ _ _ _ _ _ _ _ _ _ _ _ _ Hmono)
        in E.
    + etrans; [exact E|]. by eapply IH.
    + by injection H as _ <-.
Qed.

(** X10: nothing is removed by the batch itself.  If the transcoder never
    removes or replaces an entry of the file system, then every path that
    exists when the batch starts still exists, and is of the same kind,
    when it ends, whether the batch returns or raises. *)
Theorem batch_keeps_existing_paths ffmpeg video_files output_dir overwrite
    save_frames align_info fps resolution silent w :
  (forall cmd s w0, fs w0 ⊆ (ffmpeg cmd s w0).2) ->
  fs w ⊆ fs (encode_videos ffmpeg video_files output_dir overwrite
               save_frames align_info fps resolution silent w).2.
Proof.
  intros Hmono.
  destruct video_files as [|v0 vs]; [done|].
  rewrite encode_videos_scan by done.
  destruct (first_failure w align_info 0 (v0 :: vs)); [done|].
  destruct (encode_loop _ _ _ _ _ _) as [r w'] eqn:E.
  by apply (encode_loop_fs_mono _ _ _ _ Hmono) in E.
Qed.

Lemma batch_keeps_existing_paths_witness :
  fs demo_world
    ⊆ fs (encode_videos idle_ffmpeg ["in/a.mp4"; "in/b.mp4"] "out" true true
            None None None true demo_world).2.
Proof.
  apply (batch_keeps_existing_paths idle_ffmpeg ["in/a.mp4"; "in/b.mp4"]
           "out" true true None None None true demo_world).
  intros cmd s w0. reflexivity.
Defined.

(** ** The command line of an invocation *)

Lemma join_app sep l1 l2 :
  l1 <> [] -> l2 <> [] ->
  PyStr.join sep (l1 ++ l2)
  = PyStr.join sep l1 +:+ sep +:+ PyStr.join sep l2.
Proof.
  intros H1 H2. induction l1 as [|x l1 IH]; [done|].
  destruct l1 as [|y l1].
  - destruct l2; [done|reflexivity].
  - change (PyStr.join sep ((x :: y :: l1) ++ l2))
      with (x +:+ sep +:+ PyStr.join sep ((y :: l1) ++ l2)).
    change (PyStr.join sep (x :: y :: l1))
      with (x +:+ sep +:+ PyStr.join sep (y :: l1)).
    rewrite IH by done. by rewrite !str_app_assoc.
Qed.

Lemma encode_cmd_head video so d f res :
  exists rest,
    encode_cmd video so d f res
    = ["ffmpeg"; "-hide_banner"; "-y"; "-i"; video; "-map"; "0:v"] ++ rest.
Proof.
  unfold encode_cmd.
  destruct (if_set so) as [x|]; [destruct (PyFloat.gt0 x)|];
    (destruct (if_set d) as [y|]);
    (destruct (if_set f) as [z|]; [destruct (PyFloat.gt0 z)|]);
    (destruct res as [[wd ht]|]);
    eexists; cbn [app]; reflexivity.
Qed.

(** An encode adds no invocation or exactly one, and that one carries the
    command line of the call and its [silent] flag. *)
Lemma encode_video_single_trace ffmpeg video output_dir overwrite save_frames
    so d f res silent w r w' :
  encode_video_single ffmpeg video output_dir overwrite save_frames
    so d f res silent w = (r, w') ->
  calls w' = calls w
  \/ exists c,
       calls w' = calls w ++ [c]
       /\ call_cmd c = encode_cmd_str video output_dir save_frames so d f res
       /\ call_silent c = silent.
Proof.
  intros H.
  set (path := output_path_of video output_dir save_frames so d f res).
  destruct (negb overwrite && stat_ok w path) eqn:Hns.
  - apply andb_prop in Hns as [Ho Hs]. apply negb_true_iff in Ho. subst.
    rewrite encode_video_single_skip in H by done.
    injection H as _ <-. by left.
  - rewrite encode_video_single_run in H by done. fold path in H.
    unfold bind at 1 in H.
    destruct ((if save_frames then os_makedirs path else ret tt) w)
      as [[[]|e] w1] eqn:Hmk; apply frame_dir_step in Hmk as [_ Hcw].
    + right. unfold bind in H.
      destruct (check_call ffmpeg _ silent _) as [r0 w0] eqn:E.
      apply check_call_spec in E
        as (c0 & Hcalls & _ & Hsil & Hcmd & _ & _ & _).
      assert (w0 = w') as -> by (destruct r0; by injection H).
      exists c0. rewrite <- Hcw. auto.
    + left. by injection H as _ <-.
Qed.

(** X11: the command line of an invocation.  Whenever a single-file
    encode invokes the transcoder, the command is the space-joined word
    list of the source: it begins with ffmpeg -hide_banner -y -i, the
    input path as given, -map 0:v, and its last word is the output file
    (in frame mode the pattern %04d.jpeg inside the output directory).
    The -y is there whatever [overwrite] is, and [silent] is handed on
    unchanged. *)
Theorem invocation_command ffmpeg video output_dir overwrite save_frames
    so d f res silent w r w' c :
  encode_video_single ffmpeg video output_dir overwrite save_frames
    so d f res silent w = (r, w') ->
  calls w' = calls w ++ [c] ->
  call_cmd c = encode_cmd_str video output_dir save_frames so d f res
  /\ call_silent c = silent
  /\ (exists rest,
        call_cmd c
        = "ffmpeg -hide_banner -y -i " +:+ video +:+ " -map 0:v " +:+ rest)
  /\ (exists front,
        call_cmd c
        = front +:+ " " +:+
          output_file_of
            (output_path_of video output_dir save_frames so d f res)
            save_frames).
Proof.
  intros H Hc.
  set (path := output_path_of video output_dir save_frames so d f res).
  assert (Hcmd : call_cmd c
                 = encode_cmd_str video output_dir save_frames so d f res
                 /\ call_silent c = silent).
  { apply encode_video_single_trace in H as [Hsame|(c0 & Hc0 & Hcmd & Hsil)].
    - rewrite Hsame in Hc. by apply not_snoc_self in Hc.
    - rewrite Hc0 in Hc. apply app_inv_head in Hc. by injection Hc as <-. }
  destruct Hcmd as [Hcmd Hsil].
  split; [exact Hcmd|]. split; [exact Hsil|].
  rewrite Hcmd. unfold encode_cmd_str. fold path.
  destruct (encode_cmd_head video so d f res) as [rest Hrest].
  set (tail := (if save_frames then rest ++ ["-q:v"; "4"] else rest)
                 ++ [output_file_of path save_frames]).
  assert (Hlist :
    (if save_frames then encode_cmd video so d f res ++ ["-q:v"; "4"]
     else encode_cmd video so d f res) ++ [output_file_of path save_frames]
    = ["ffmpeg"; "-hide_banner"; "-y"; "-i"; video; "-map"; "0:v"] ++ tail).
  { unfold tail. rewrite Hrest.
    destruct save_frames; by rewrite <- ?app_assoc. }
  split.
  - rewrite Hlist. exists (PyStr.join " " tail).
    rewrite join_app; [|done|].
    + change (PyStr.join " "
                ["ffmpeg"; "-hide_banner"; "-y"; "-i"; video; "-map"; "0:v"])
        with ("ffmpeg -hide_banner -y -i " +:+ video +:+ " -map 0:v").
      by rewrite !str_app_assoc.
    + unfold tail. by destruct (if save_frames then _ else _).
  - exists (PyStr.join " "
              (if save_frames then encode_cmd video so d f res ++ ["-q:v"; "4"]
               else encode_cmd video so d f res)).
    apply join_app; [|done].
    rewrite Hrest. by destruct save_frames.
Qed.

Lemma invocation_command_witness :
  let cmd := "ffmpeg -hide_banner -y -i in/bad.mp4 -map 0:v out/bad.mp4" in
  let c := Call cmd true (fs demo_world) (fs demo_world) (Exited 1) in
  call_cmd c
    = encode_cmd_str "in/bad.mp4" "out" false None None None None
  /\ call_silent c = true.
Proof.
  intros cmd c.
  destruct (invocation_command demo_ffmpeg "in/bad.mp4" "out" false false
              None None None None true demo_world
              (Raise (CalledProcessError 1 cmd))
              (World (fs demo_world) [c]) c) as (H1 & H2 & _).
  - vm_compute; reflexivity.
  - reflexivity.
  - split; [exact H1|exact H2].
Defined.

(** ** Parameters that are named but not applied *)

Lemma build_features_length so d f r :
  length (build_features so d f r)
  = (length (option_list (if_set so)) + length (option_list (if_set d))
     + length (option_list (if_set f)) + length (option_list r))%nat.
Proof.
  unfold build_features.
  destruct (if_set so), (if_set d), (if_set f), r as [[wd ht]|]; reflexivity.
Qed.

(** X12: a start offset or an fps that is not zero and not above zero (a
    negative value, or NaN) changes the output name but not the command:
    the name carries its ss or fps tag while the command line has no -ss
    and no fps filter for it, exactly as if the parameter were absent. *)
Theorem tagged_but_not_applied basename video (x : float) so d f res :
  PyFloat.truthy x = true ->
  PyFloat.gt0 x = false ->
  (encode_cmd video (Some x) d f res = encode_cmd video None d f res
   /\ _build_filename basename (Some x) d f res
      <> _build_filename basename None d f res)
  /\ (encode_cmd video so d (Some x) res = encode_cmd video so d None res
      /\ _build_filename basename so d (Some x) res
         <> _build_filename basename so d None res).
Proof.
  intros Ht Hg.
  assert (Hset : if_set (Some x) = Some x) by (simpl; by rewrite Ht).
  split; split.
  - unfold encode_cmd. rewrite Hset, Hg. reflexivity.
  - intros Heq%build_filename_features.
    apply (f_equal length) in Heq. rewrite !build_features_length in Heq.
    rewrite Hset in Heq. simpl in Heq. lia.
  - unfold encode_cmd. rewrite Hset, Hg. reflexivity.
  - intros Heq%build_filename_features.
    apply (f_equal length) in Heq. rewrite !build_features_length in Heq.
    rewrite Hset in Heq. simpl in Heq. lia.
Qed.

Lemma tagged_but_not_applied_witness :
  PyFloat.truthy (-1)%float = true
  /\ PyFloat.gt0 (-1)%float = false
  /\ encode_cmd "in/a.mp4" (Some (-1)%float) None None None
     = encode_cmd "in/a.mp4" None None None None
  /\ _build_filename "a.mp4" (Some (-1)%float) None None None
     <> _build_filename "a.mp4" None None None None.
Proof.
  assert (Ht : PyFloat.truthy (-1)%float = true) by reflexivity.
  assert (Hg : PyFloat.gt0 (-1)%float = false) by reflexivity.
  split; [exact Ht|]. split; [exact Hg|].
  exact (proj1 (tagged_but_not_applied "a.mp4" "in/a.mp4" (-1)%float
                  None None None None Ht Hg)).
Defined.

(** ** Encoding without parameters *)

Lemma take_drop_str n s : PyStr.take n s +:+ PyStr.drop n s = s.
Proof.
  revert s. induction n as [|n IH]; intros [|a s]; try reflexivity.
  cbn [PyStr.take PyStr.drop]. by rewrite str_app_cons, IH.
Qed.

Lemma splitext_concat p : (OsPath.splitext p).1 +:+ (OsPath.splitext p).2 = p.
Proof.
  unfold OsPath.splitext. destruct (_ && _); cbn [fst snd].
  - apply take_drop_str.
  - apply str_app_nil_r.
Qed.

(** X13: with no transform parameter, video mode writes to the output
    directory joined with the base name of the input, unchanged.  So when
    that is the path of the input itself (the output directory is the
    directory of the input) and overwrite is off, the call finds its
    output present, invokes nothing and returns the input path. *)
Theorem plain_video_output ffmpeg video output_dir silent w :
  output_path_of video output_dir false None None None None
    = OsPath.join output_dir (OsPath.basename video)
  /\ (OsPath.join output_dir (OsPath.basename video) = video ->
      stat_ok w video = true ->
      encode_video_single ffmpeg video output_dir false false
        None None None None silent w = (Ok video, w)).
Proof.
  assert (Hpath : output_path_of video output_dir false None None None None
                  = OsPath.join output_dir (OsPath.basename video)).
  { unfold output_path_of. rewrite build_filename_stem.
    cbn [build_features if_set app]. by rewrite splitext_concat. }
  split; [exact Hpath|].
  intros Hself Hex.
  rewrite encode_video_single_skip; rewrite Hpath, Hself; done.
Qed.

Lemma plain_video_output_witness :
  OsPath.join "in" (OsPath.basename "in/a.mp4") = "in/a.mp4"
  /\ stat_ok demo_world "in/a.mp4" = true
  /\ encode_video_single demo_ffmpeg "in/a.mp4" "in" false false
       None None None None true demo_world = (Ok "in/a.mp4", demo_world).
Proof.
  assert (H1 : OsPath.join "in" (OsPath.basename "in/a.mp4") = "in/a.mp4")
    by reflexivity.
  assert (H2 : stat_ok demo_world "in/a.mp4" = true)
    by (vm_compute; reflexivity).
  split; [exact H1|]. split; [exact H2|].
  exact (proj2 (plain_video_output demo_ffmpeg "in/a.mp4" "in" true
                  demo_world) H1 H2).
Defined.

(** ** The output path stays under the output directory *)

(** X14: the output path stays under the output directory.  Whatever the
    input path is (absolute, or with directories of its own), the output
    path is the output directory followed by the built name, with one
    slash put between unless the directory is empty or ends in one: the
    name never begins with a slash, so the join never drops the
    directory. *)
Theorem output_under_output_dir video output_dir (save_frames : bool)
    so d f res :
  let name :=
    (_build_filename (OsPath.basename video) so d f res).1
      +:+ (if save_frames then ""
           else (_build_filename (OsPath.basename video) so d f res).2) in
  output_path_of video output_dir save_frames so d f res
  = if String.eqb output_dir "" || PyStr.endswith output_dir "/"%char
    then output_dir +:+ name
    else output_dir +:+ "/" +:+ name.
Proof.
  intros name.
  pose proof (output_name_not_absolute video save_frames so d f res) as Hn.
  cbv zeta in Hn. fold name in Hn.
  assert (Hpath : output_path_of video output_dir save_frames so d f res
                  = OsPath.join output_dir name).
  { unfold output_path_of, name.
    destruct (_build_filename (OsPath.basename video) so d f res) as [st ex].
    cbn [fst snd]. destruct save_frames; [by rewrite str_app_nil_r|done]. }
  rewrite Hpath. unfold OsPath.join. by rewrite Hn.
Qed.

(** ** A shared duration of zero *)

Lemma for_each_ext {A B} (g h : A -> M B) l :
  (forall x, g x = h x) -> forall w, for_each g l w = for_each h l w.
Proof.
  intros Hgh. induction l as [|x l IH]; intros w; [reflexivity|].
  simpl. unfold bind. rewrite Hgh.
  destruct (h x w) as [[y|e] w1]; [|reflexivity]. by rewrite IH.
Qed.

Lemma encode_video_single_zero_duration ffmpeg video output_dir overwrite
    save_frames so (z : float) f res silent :
  PyFloat.truthy z = false ->
  encode_video_single ffmpeg video output_dir overwrite save_frames
    so (Some z) f res silent
  = encode_video_single ffmpeg video output_dir overwrite save_frames
      so None f res silent.
Proof.
  intros Hz%if_set_zero.
  unfold encode_video_single, output_path_of, _build_filename,
    build_features, encode_cmd.
  by rewrite !Hz.
Qed.

(** X15: when the shortest clip has no length left after trimming, so
    that the shared duration is zero, the batch applies no duration at
    all: every file is encoded from its own start offset with neither a -t
    flag nor a t tag in its name. *)
Theorem zero_shared_duration_unlimited ffmpeg video_files output_dir
    overwrite save_frames (recs : list align_record) fps resolution silent
    w (z : float) :
  video_files <> [] ->
  Forall2 (fun v r => OsPath.basename v = OsPath.basename (file r))
          video_files recs ->
  Forall (fun v => stat_ok w v = true) video_files ->
  PyFloat.py_min ((fun r => (orig_duration r - trim r)%float) <$> recs)
    = Some z ->
  PyFloat.truthy z = false ->
  encode_videos ffmpeg video_files output_dir overwrite save_frames
    (Some recs) fps resolution silent w
  = for_each
      (fun vr =>
         encode_video_single ffmpeg vr.1 output_dir overwrite save_frames
           (Some (trim vr.2)) None fps resolution silent)
      (zip video_files recs) w.
Proof.
  intros Hne Hmatch Hacc Hmin Hz.
  rewrite encode_videos_unfold by done.
  pose proof (for_range_prepare_ok video_files recs w video_files recs
                Hmatch (proj1 (Forall_forall _ _) Hacc) [] [] [] []
                eq_refl eq_refl eq_refl) as Hprep.
  cbn [length app] in Hprep. rewrite Hprep. clear Hprep.
  assert (Ht : align_truthy (Some recs) = true).
  { destruct Hmatch; [done|reflexivity]. }
  rewrite Ht, Hmin.
  rewrite encode_loop_for_each, for_each_fmap.
  cbn [bk_overwrite bk_save_frames bk_duration bk_fps bk_resolution
       bk_silent fst snd].
  rewrite (for_each_ext _
             (fun vr => encode_video_single ffmpeg vr.1 output_dir overwrite
                          save_frames (Some (trim vr.2)) None fps resolution
                          silent)).
  - apply for_each_ok_eta.
  - intros [v r]. by apply encode_video_single_zero_duration.
Qed.

Lemma zero_shared_duration_unlimited_witness :
  let recs := [AlignRecord "a.mp4" 10 2; AlignRecord "b.mp4" 5 5] in
  PyFloat.py_min ((fun r => (orig_duration r - trim r)%float) <$> recs)
    = Some 0%float
  /\ encode_videos demo_ffmpeg ["in/a.mp4"; "in/b.mp4"] "out" false false
       (Some recs) None None true demo_world
     = for_each
         (fun vr =>
            encode_video_single demo_ffmpeg vr.1 "out" false false
              (Some (trim vr.2)) None None None true)
         (zip ["in/a.mp4"; "in/b.mp4"] recs) demo_world.
Proof.
  intros recs.
  assert (Hmin : PyFloat.py_min
                   ((fun r => (orig_duration r - trim r)%float) <$> recs)
                 = Some 0%float) by reflexivity.
  split; [exact Hmin|].
  apply (zero_shared_duration_unlimited demo_ffmpeg
           ["in/a.mp4"; "in/b.mp4"] "out" false false recs None None true
           demo_world 0%float).
  - discriminate.
  - repeat constructor.
  - repeat constructor.
  - exact Hmin.
  - reflexivity.
Defined.

(** ** Inputs with the same base name *)

(** X16: inputs are told apart by base name only.  In a batch without
    alignment records and with overwrite off, two accessible inputs of
    the same base name share one output path: once the encode of the
    first has returned and its output exists, the second is not encoded at
    all, yet the batch returns that path for both; the world is the one
    the first encode left. *)
Theorem same_basename_second_skipped ffmpeg v1 v2 output_dir save_frames
    align_info fps resolution silent w p w1 :
  OsPath.basename v1 = OsPath.basename v2 ->
  align_truthy align_info = false ->
  stat_ok w v1 = true -> stat_ok w v2 = true ->
  encode_video_single ffmpeg v1 output_dir false save_frames
    None None fps resolution silent w = (Ok p, w1) ->
  stat_ok w1 p = true ->
  encode_videos ffmpeg [v1; v2] output_dir false save_frames align_info
    fps resolution silent w = (Ok [p; p], w1).
Proof.
  intros Hb Ht H1 H2 Hfirst Hex.
  rewrite encode_videos_scan by done.
  unfold shared_duration_of, first_failure, passes_checks, kwargs_from,
    start_offset_at.
  rewrite Ht, H1, H2. cbn [andb].
  cbn [encode_loop bk_overwrite bk_save_frames bk_duration bk_fps
       bk_resolution bk_silent].
  rewrite (bind_ok _ _ _ _ _ Hfirst).
  pose proof Hfirst as Hp. apply encode_video_single_ok in Hp as [Hp _].
  assert (Hsame : output_path_of v2 output_dir save_frames None None fps
                    resolution = p).
  { rewrite Hp. unfold output_path_of. by rewrite Hb. }
  rewrite (bind_ok _ _ w1 p w1).
  - reflexivity.
  - rewrite encode_video_single_skip by (by rewrite Hsame).
    by rewrite Hsame.
Qed.

Lemma same_basename_second_skipped_witness :
  let w := World (list_to_map [("x/a.mp4", File); ("y/a.mp4", File)]) [] in
  let w1 := (encode_video_single demo_ffmpeg "x/a.mp4" "out" false false
               None None None None true w).2 in
  encode_videos demo_ffmpeg ["x/a.mp4"; "y/a.mp4"] "out" false false None
    None None true w = (Ok ["out/a.mp4"; "out/a.mp4"], w1).
Proof.
  intros w w1.
  apply (same_basename_second_skipped demo_ffmpeg "x/a.mp4" "y/a.mp4" "out"
           false None None None true w "out/a.mp4" w1).
  - reflexivity.
  - reflexivity.
  - vm_compute; reflexivity.
  - vm_compute; reflexivity.
  - vm_compute; reflexivity.
  - vm_compute; reflexivity.
Defined.

(** ** The order of the invocations of a batch *)

Lemma encode_loop_trace ffmpeg output_dir bk file_kwargs :
  forall outs w r w',
    encode_loop ffmpeg output_dir bk file_kwargs outs w = (r, w') ->
    exists new,
      calls w' = calls w ++ new
      /\ Forall (fun c => call_silent c = bk_silent bk) new
      /\ (call_cmd <$> new)
           `sublist_of`
         ((fun vo => encode_cmd_str vo.1 output_dir (bk_save_frames bk) vo.2
                       (bk_duration bk) (bk_fps bk) (bk_resolution bk))
            <$> file_kwargs).
Proof.
  induction file_kwargs as [|[v o] rest IH]; intros outs w r w' H.
  - injection H as _ <-. exists []. rewrite app_nil_r.
    split; [done|]. split; [constructor|constructor].
  - simpl in H. unfold bind at 1 in H.
    destruct (encode_video_single ffmpeg v output_dir (bk_overwrite bk)
                (bk_save_frames bk) o (bk_duration bk) (bk_fps bk)
                (bk_resolution bk) (bk_silent bk) w) as [r1 w1] eqn:E.
    apply encode_video_single_trace in E
      as [Hsame|(c & Hc & Hcmd & Hsil)].
    + destruct r1 as [out|e].
      * apply IH in H as (new & Hnew & Hs & Hsub). exists new.
        split; [by rewrite Hnew, Hsame|]. split; [exact Hs|].
        cbn [fmap list_fmap]. by apply sublist_cons.
      * injection H as _ <-. exists []. rewrite app_nil_r.
        split; [done|]. split; [constructor|apply sublist_nil_l].
    + destruct r1 as [out|e].
      * apply IH in H as (new & Hnew & Hs & Hsub). exists (c :: new).
        split; [by rewrite Hnew, Hc, <- app_assoc|].
        split; [by constructor|].
        cbn [fmap list_fmap fst snd]. rewrite Hcmd. by apply sublist_skip.
      * injection H as _ <-. exists [c]. split; [exact Hc|].
        split; [by repeat constructor|].
        cbn [fmap list_fmap fst snd]. rewrite Hcmd.
        apply sublist_skip, sublist_nil_l.
Qed.

(** X6: the invocations of a batch follow the input order, at most one
    per file.  The command lines of the invocations a batch adds to the
    record, read in order, are those of some of the input files in input
    order, each built with the start offset of its file and the shared
    duration; so there are no more of them than files.  Each invocation
    carries the [silent] flag of the batch. *)
Theorem invocations_in_input_order ffmpeg video_files output_dir overwrite
    save_frames align_info fps resolution silent w :
  exists new,
    calls (encode_videos ffmpeg video_files output_dir overwrite save_frames
             align_info fps resolution silent w).2 = calls w ++ new
    /\ (call_cmd <$> new)
         `sublist_of`
       imap (fun i v =>
               encode_cmd_str v output_dir save_frames
                 (start_offset_at align_info i)
                 (shared_duration_of align_info (length video_files))
                 fps resolution)
            video_files
    /\ (length new <= length video_files)%nat
    /\ Forall (fun c => call_silent c = silent) new.
Proof.
  assert (Hnone : exists new : list call,
            calls w = calls w ++ new
            /\ (call_cmd <$> new)
                 `sublist_of`
               imap (fun i v =>
                       encode_cmd_str v output_dir save_frames
                         (start_offset_at align_info i)
                         (shared_duration_of align_info (length video_files))
                         fps resolution)
                    video_files
            /\ (length new <= length video_files)%nat
            /\ Forall (fun c => call_silent c = silent) new).
  { exists []. rewrite app_nil_r. split; [done|].
    split; [apply sublist_nil_l|]. split; [simpl; lia|constructor]. }
  destruct video_files as [|v0 vs]; [exact Hnone|].
  rewrite encode_videos_scan by done.
  destruct (first_failure w align_info 0 (v0 :: vs)); [exact Hnone|].
  clear Hnone.
  destruct (encode_loop _ _ _ _ _ _) as [r w'] eqn:E.
  apply encode_loop_trace in E as (new & Hnew & Hs & Hsub).
  cbn [bk_save_frames bk_duration bk_fps bk_resolution bk_silent] in *.
  rewrite (kwargs_from_fmap
             (fun v o => encode_cmd_str v output_dir save_frames o
                           (shared_duration_of align_info
                              (length (v0 :: vs)))
                           fps resolution) align_info (v0 :: vs) 0) in Hsub.
  exists new. split; [exact Hnew|]. split; [exact Hsub|].
  split; [|exact Hs].
  apply sublist_length in Hsub.
  by rewrite length_fmap, length_imap in Hsub.
Qed.
